(** * Translator-Rephraser: the relay of [app.py]

    A shallow embedding of the pure helpers of [app.py] ([is_arabic],
    [clean_response], [create_prompt]) and of the streaming [generator]
    that relays the lines of the upstream response as event-stream frames.

    Python strings are sequences of Unicode code points, so a [str] is a
    [list N].  The values that [json.loads] and [request.get_json] can
    return are the inductive [pyval]; an object is a finite map from key
    strings to values. *)

From Stdlib Require Import NArith ZArith List String Ascii Bool Lia.
From Stdlib Require Import Floats.SpecFloat DecimalString.
From stdpp Require Import base option list gmap.

Set Warnings "-register-all".
Local Open Scope N_scope.

(** ** Strings *)

Abbreviation pystr := (list N).

(** A literal of the source that holds ASCII characters only. *)
Definition lit (s : string) : pystr :=
  List.map N_of_ascii (list_ascii_of_string s).

Definition dquote : pystr := [34].
Definition nl : pystr := [10].

(** [sub in s] for two strings: [sub] occurs in [s] as a contiguous run. *)
Fixpoint starts_with (sub s : pystr) : bool :=
  match sub, s with
  | [], _ => true
  | _ :: _, [] => false
  | a :: sub', b :: s' => (a =? b) && starts_with sub' s'
  end.

Fixpoint contains (sub s : pystr) : bool :=
  starts_with sub s ||
  match s with
  | [] => false
  | _ :: s' => contains sub s'
  end.

Definition infix (sub s : pystr) : Prop :=
  exists pre post : pystr, s = pre ++ sub ++ post.

(** [agrees r s]: [r] and [s] are equal as far as both go. *)
Fixpoint agrees (r s : pystr) : bool :=
  match r, s with
  | a :: r', b :: s' => (a =? b) && agrees r' s'
  | _, _ => true
  end.

(** [no_start_in r pre]: at no position of [pre] does [r] agree with the
    rest of [pre], so no occurrence of [r] in a string that starts with
    [pre] begins inside [pre]. *)
Fixpoint no_start_in (r pre : pystr) : bool :=
  match pre with
  | [] => true
  | _ :: pre' => negb (agrees r pre) && no_start_in r pre'
  end.

(** ** Python values and exceptions *)

Inductive pyval :=
| PyNone
| PyBool (b : bool)
| PyInt (z : Z)
| PyFloat (f : spec_float)
| PyStr (s : pystr)
| PyList (l : list pyval)
| PyDict (d : gmap pystr pyval).

(** The exception classes that the relay can meet.  [ValueError] stands for
    its two subclasses raised while decoding a line, [UnicodeDecodeError]
    and [json.JSONDecodeError]; [RequestException] is the root of the
    exceptions of the [requests] library and no other class here is one
    of its subclasses. *)
Inductive exn :=
  RequestException | ValueError | TypeError | AttributeError | KeyError.

Inductive result (A : Type) :=
| Ok (a : A)
| Raise (e : exn).
Arguments Ok {A} a.
Arguments Raise {A} e.

(** [bool(v)]: the truth value of a Python value. *)
Definition truthy (v : pyval) : bool :=
  match v with
  | PyNone => false
  | PyBool b => b
  | PyInt z => negb (z =? 0)%Z
  | PyFloat (S754_zero _) => false
  | PyFloat _ => true
  | PyStr s => negb (bool_decide (s = []))
  | PyList l => match l with [] => false | _ :: _ => true end
  | PyDict d => negb (bool_decide (d = ∅))
  end.

Definition isinstance_str (v : pyval) : bool :=
  match v with PyStr _ => true | _ => false end.

(** ** Regular expressions of one character class *)

Definition in_range (lo hi c : N) : bool := (lo <=? c) && (c <=? hi).

(** [re.search(cls, s)] as a truth value: some character is in the class. *)
Definition re_search_class (cls : N -> bool) (s : pystr) : bool :=
  existsb cls s.

(** [re.sub(cls, repl, s)]: every character of the class is replaced. *)
Definition re_sub_class (cls : N -> bool) (repl s : pystr) : pystr :=
  List.concat (List.map (fun c => if cls c then repl else [c]) s).

(** [s.replace(old, new)] for a string [old] of one character. *)
Fixpoint str_replace_char (old : N) (new s : pystr) : pystr :=
  match s with
  | [] => []
  | c :: s' =>
      (if c =? old then new else [c]) ++ str_replace_char old new s'
  end.

(** ** [is_arabic] *)

(** The class from U+0600 to U+06FF. *)
Definition arabic_block (c : N) : bool := in_range 0x0600 0x06FF c.

Definition is_arabic (text : pyval) : bool :=
  if negb (truthy text) || negb (isinstance_str text) then false
  else
    match text with
    | PyStr s => re_search_class arabic_block s
    | _ => false
    end.

Definition Arabic : pystr := lit "Arabic".
Definition English : pystr := lit "English".

(** [source_language] of [generate]. *)
Definition source_language (original_text : pyval) : pystr :=
  if is_arabic original_text then Arabic else English.

(** ** [clean_response] *)

(** The class from U+064B to U+065F, with U+0670. *)
Definition arabic_diacritics (c : N) : bool :=
  in_range 0x064B 0x065F c || (c =? 0x0670).

Definition question_mark : N := 63.

Definition clean_str (text : pystr) : pystr :=
  let cleaned_text := re_sub_class arabic_diacritics [] text in
  let cleaned_text := str_replace_char question_mark [] cleaned_text in
  cleaned_text.

(** [re.sub] raises [TypeError] on an argument that is no string. *)
Definition clean_response (text : pyval) : result pyval :=
  if negb (truthy text) then Ok text
  else
    match text with
    | PyStr s => Ok (PyStr (clean_str s))
    | _ => Raise TypeError
    end.

(** The two character sets in arithmetic form: the Arabic diacritics are
    the code points U+064B to U+065F and U+0670, and the cleaner removes
    them and the question mark. *)
Definition Diacritic (c : N) : Prop :=
  (0x064B ≤ c ∧ c ≤ 0x065F) ∨ c = 0x0670.

Definition Removed (c : N) : Prop := Diacritic c ∨ c = 63.

Definition InArabicBlock (c : N) : Prop := 0x0600 ≤ c ∧ c ≤ 0x06FF.

#[global] Instance Diacritic_dec (c : N) : Decision (Diacritic c).
Proof. unfold Diacritic. apply _. Defined.

#[global] Instance Removed_dec (c : N) : Decision (Removed c).
Proof. unfold Removed. apply _. Defined.

(** [result] as an error monad: the exception of the first call leaves. *)
Definition bind {A B : Type} (m : result A) (k : A -> result B) : result B :=
  match m with
  | Ok a => k a
  | Raise e => Raise e
  end.

(** ** [create_prompt] *)

(** [v == s] for a string literal [s]: only an equal string compares equal. *)
Definition py_eq_str (v : pyval) (s : pystr) : bool :=
  match v with
  | PyStr t => bool_decide (t = s)
  | _ => false
  end.

(** The Arabic word of the good example: U+0645 U+0631 U+062D U+0628 U+0627. *)
Definition marhaba : pystr := [0x0645; 0x0631; 0x062D; 0x0628; 0x0627].

(** The same word written with its marks (fatha, sukun, fatha, fathatan)
    and followed by a question mark. *)
Definition marhaban_marked : pystr :=
  [0x0645; 0x064E; 0x0631; 0x0652; 0x062D; 0x064E; 0x0628; 0x064B; 0x0627; 63].

Definition diacritics_rule_arabic : pystr :=
  lit "1. **ABSOLUTELY CRITICAL**: Your response MUST NOT contain any Arabic diacritics (Tashkeel / formations)." ++ nl ++
  lit "   - **Example (Good)**: " ++ dquote ++ marhaba ++ dquote ++ nl ++
  lit "2. **CRITICAL**: Do NOT output any question mark `?` characters.".

Definition other_rules_arabic (source_lang target_lang : pystr) : pystr :=
  lit "3. Your response MUST contain ONLY the translated text." ++ nl ++
  lit "4. Do NOT add any comments, explanations, or introductory phrases." ++ nl ++
  lit "5. **CRITICAL**: You MUST convert every single " ++ source_lang ++
  lit " word into " ++ target_lang ++ lit ".".

Definition other_rules_english (source_lang target_lang : pystr) : pystr :=
  lit "1. Your response MUST contain ONLY the translated text." ++ nl ++
  lit "2. Do NOT add any comments." ++ nl ++
  lit "3. **CRITICAL**: You MUST convert every single " ++ source_lang ++
  lit " word into " ++ target_lang ++ lit ".".

Definition end_of_turn : pystr :=
  lit "<end_of_turn>" ++ nl ++ lit "<start_of_turn>model" ++ nl.

(** Each template is the text before the embedded input, the input, and
    the text after it. *)
Definition translate_head
    (source_lang target_lang diacritics_rule other_rules : pystr) : pystr :=
  lit "<start_of_turn>user" ++ nl ++
  lit "You are a direct translation engine. Translate the provided " ++
  source_lang ++ lit " text to " ++ target_lang ++ lit "." ++ nl ++
  nl ++
  lit "Follow these rules exactly:" ++ nl ++
  diacritics_rule ++ nl ++
  other_rules ++ nl ++
  nl ++
  lit "### TASK ###" ++ nl ++
  source_lang ++ lit " Text: " ++ dquote.

Definition translate_tail : pystr := dquote ++ end_of_turn.

Definition translate_template
    (source_lang target_lang diacritics_rule other_rules text : pystr) : pystr :=
  translate_head source_lang target_lang diacritics_rule other_rules ++
  text ++ translate_tail.

Definition tokenize_head (source_lang : pystr) : pystr :=
  lit "<start_of_turn>user" ++ nl ++
  lit "You are a JSON output machine. Your only function is to output a specific JSON structure. Follow these steps exactly:" ++ nl ++
  nl ++
  lit "1.  Analyze this " ++ source_lang ++ lit " text: " ++ dquote.

(** The template line that holds the JSON key, between braces. *)
Definition json_template (json_key : pystr) : pystr :=
  lit "{" ++ dquote ++ json_key ++ dquote ++ lit ": []}".

Definition tokenize_tail (tag_lang json_key : pystr) : pystr :=
  dquote ++ nl ++
  lit "2.  Extract the key nouns, entities, and concepts for use as search tags." ++ nl ++
  lit "3.  **All tags MUST be in " ++ tag_lang ++
  lit ".** Do not mix languages." ++ nl ++
  lit "4.  **Correct any spelling errors and standardize abbreviations.**" ++ nl ++
  lit "5.  Remove all stop words, non-essential words, and duplicate entries." ++ nl ++
  lit "6.  If generating " ++ tag_lang ++
  lit " tags, do NOT include any diacritics (Tashkeel / formations)." ++ nl ++
  lit "7.  Output **NOTHING** except for the completed JSON structure below. Do not use markdown." ++ nl ++
  nl ++
  lit "COPY AND PASTE THIS TEMPLATE, THEN FILL IT IN:" ++ nl ++
  json_template json_key ++ nl ++
  nl ++
  lit "Your entire response must be only the filled-out template." ++
  end_of_turn.

Definition tokenize_template
    (source_lang tag_lang json_key text : pystr) : pystr :=
  tokenize_head source_lang ++ text ++ tokenize_tail tag_lang json_key.

Definition rephrase_head (source_lang : pystr) : pystr :=
  lit "<start_of_turn>user" ++ nl ++
  lit "You are a professional editor. Your task is to rewrite the following " ++
  source_lang ++
  lit " text to be clearer, more concise, and more professional, while strictly preserving the original meaning." ++ nl ++
  nl ++
  lit "Rules:" ++ nl ++
  lit "1. Do NOT change the language. Keep it in " ++ source_lang ++ lit "." ++ nl ++
  lit "2. Output ONLY the rephrased text. No conversational filler." ++ nl ++
  lit "3. If the text is Arabic, do NOT use diacritics (Tashkeel)." ++ nl ++
  nl ++
  lit "Text: " ++ dquote.

Definition rephrase_template (source_lang text : pystr) : pystr :=
  rephrase_head source_lang ++ text ++ dquote ++ end_of_turn.

Definition target_lang_of (source_lang : pystr) : pystr :=
  if bool_decide (source_lang = English) then Arabic else English.

Definition tag_lang_of (source_lang : pystr) : pystr :=
  if bool_decide (source_lang = Arabic) then Arabic else English.

Definition json_key_of (source_lang : pystr) : pystr :=
  if bool_decide (source_lang = Arabic) then lit "arabic_tags"
  else lit "english_tags".

Definition create_prompt (text : pystr) (task : pyval) (source_lang : pystr)
    : pystr :=
  if py_eq_str task (lit "translate") then
    let target_lang := target_lang_of source_lang in
    if bool_decide (target_lang = Arabic) then
      translate_template source_lang target_lang diacritics_rule_arabic
        (other_rules_arabic source_lang target_lang) text
    else
      translate_template source_lang target_lang []
        (other_rules_english source_lang target_lang) text
  else if py_eq_str task (lit "tokenize") then
    tokenize_template source_lang (tag_lang_of source_lang)
      (json_key_of source_lang) text
  else if py_eq_str task (lit "rephrase") then
    rephrase_template source_lang text
  else text.

(** The three tasks that have a template. *)
Definition translate_task : pyval := PyStr (lit "translate").
Definition tokenize_task : pyval := PyStr (lit "tokenize").
Definition rephrase_task : pyval := PyStr (lit "rephrase").

(** The sentence of the translate template that names both languages. *)
Definition translate_instruction (source_lang target_lang : pystr) : pystr :=
  lit "Translate the provided " ++ source_lang ++ lit " text to " ++
  target_lang ++ lit ".".

(** ** The streaming relay: [generator] inside [generate] *)

(** One item of [response.iter_lines()], seen through what the loop does
    with it: the empty bytes object is falsy and skipped, and a non-empty
    one goes through [json.loads(chunk.decode('utf-8'))], which either
    raises ([UnicodeDecodeError] or [json.JSONDecodeError], both
    [ValueError]) or returns a value. *)
Inductive line :=
| EmptyLine
| BadLine
| JsonLine (v : pyval).

(** How the iteration over the response body ends when the loop reads that
    far: the body is exhausted, or the transport raises (a
    [ChunkedEncodingError] or [ConnectionError], both [RequestException]). *)
Inductive stream_end := Closed | Broken.

(** What the backend does with one request. *)
Inductive upstream :=
| PostRaises                                 (* [requests.post] raises *)
| StatusRaises                               (* [raise_for_status] raises *)
| Responds (ls : list line) (fin : stream_end).

Definition response_key : pystr := lit "response".
Definition done_key : pystr := lit "done".

(** ['response' in decoded_chunk] *)
Definition contains_response (decoded_chunk : pyval) : result bool :=
  match decoded_chunk with
  | PyDict d => Ok (bool_decide (is_Some (d !! response_key)))
  | PyList l => Ok (existsb (fun x => py_eq_str x response_key) l)
  | PyStr s => Ok (contains response_key s)
  | PyNone | PyBool _ | PyInt _ | PyFloat _ => Raise TypeError
  end.

(** [decoded_chunk['response']] *)
Definition getitem_response (decoded_chunk : pyval) : result pyval :=
  match decoded_chunk with
  | PyDict d =>
      match d !! response_key with
      | Some x => Ok x
      | None => Raise KeyError
      end
  | _ => Raise TypeError
  end.

(** [decoded_chunk.get('done', False)] *)
Definition get_done (decoded_chunk : pyval) : result pyval :=
  match decoded_chunk with
  | PyDict d => Ok (default (PyBool false) (d !! done_key))
  | _ => Raise AttributeError
  end.

Definition is_none (v : pyval) : bool :=
  match v with PyNone => true | _ => false end.

(** [str(v)], as the f-string applies it, for a string, [None], a truth
    value, an integer, a zero float and an empty container.  The text of
    the other floats and of non-empty containers is not written out
    ([None]); [clean_response] never returns one of them, and [py_str]
    takes it as a parameter where [generate] can meet one. *)
Definition format_value (v : pyval) : option pystr :=
  match v with
  | PyNone => Some (lit "None")
  | PyBool true => Some (lit "True")
  | PyBool false => Some (lit "False")
  | PyInt z => Some (lit (NilZero.string_of_int (Z.to_int z)))
  | PyFloat (S754_zero false) => Some (lit "0.0")
  | PyFloat (S754_zero true) => Some (lit "-0.0")
  | PyFloat _ => None
  | PyStr s => Some s
  | PyList [] => Some (lit "[]")
  | PyList (_ :: _) => None
  | PyDict d => if bool_decide (d = ∅) then Some (lit "{}") else None
  end.

(** The frame of one event: [f"data: {content}\n\n"]. *)
Definition frame (content : pystr) : pystr :=
  lit "data: " ++ content ++ nl ++ nl.

Definition END_OF_STREAM : pystr := frame (lit "[END_OF_STREAM]").
Definition ERROR : pystr := frame (lit "[ERROR]").

(** How the body of the [for] loop leaves one chunk.  [Stuck] marks a
    [format_value] outside the model. *)
Inductive body_end := Continue | Break | Throw (e : exn) | Stuck.

(** The first [if] of the loop body: the frames it yields, and the
    exception it raises if any. *)
Definition yield_response (decoded_chunk : pyval) : list pystr * body_end :=
  match contains_response decoded_chunk with
  | Raise e => ([], Throw e)
  | Ok false => ([], Continue)
  | Ok true =>
      match getitem_response decoded_chunk with
      | Raise e => ([], Throw e)
      | Ok raw_response =>
          if is_none raw_response then ([], Continue)
          else
            match clean_response raw_response with
            | Raise e => ([], Throw e)
            | Ok cleaned_response =>
                match format_value cleaned_response with
                | Some s => ([frame s], Continue)
                | None => ([], Stuck)
                end
            end
      end
  end.

(** The second [if] of the loop body. *)
Definition check_done (decoded_chunk : pyval) : body_end :=
  match get_done decoded_chunk with
  | Raise e => Throw e
  | Ok v => if truthy v then Break else Continue
  end.

(** The body of the [for] loop on one chunk. *)
Definition loop_body (chunk : line) : list pystr * body_end :=
  match chunk with
  | EmptyLine => ([], Continue)
  | BadLine => ([], Throw ValueError)
  | JsonLine decoded_chunk =>
      match yield_response decoded_chunk with
      | (out, Continue) => (out, check_done decoded_chunk)
      | (out, k) => (out, k)
      end
  end.

(** How the [for] loop ends. *)
Inductive loop_end := Finished | Raised (e : exn) | LoopStuck.

Record loop_run := LoopRun {
  frames : list pystr;     (* the frames yielded, in order *)
  stop : loop_end;
  unread : list line       (* the lines never asked of the iterator *)
}.

Fixpoint relay_loop (ls : list line) (fin : stream_end) : loop_run :=
  match ls with
  | [] =>
      match fin with
      | Closed => LoopRun [] Finished []
      | Broken => LoopRun [] (Raised RequestException) []
      end
  | chunk :: rest =>
      match loop_body chunk with
      | (out, Continue) =>
          let r := relay_loop rest fin in
          LoopRun (out ++ frames r) (stop r) (unread r)
      | (out, Break) => LoopRun out Finished rest
      | (out, Throw e) => LoopRun out (Raised e) rest
      | (out, Stuck) => LoopRun out LoopStuck rest
      end
  end.

(** [isinstance(e, requests.exceptions.RequestException)] *)
Definition is_request_exception (e : exn) : bool :=
  match e with RequestException => true | _ => false end.

(** How the generator ends: it returns (the stream is closed in order), or
    an exception leaves it. *)
Inductive gen_end := Returned | Propagated (e : exn) | GenStuck.

(** The frames the generator yields when it is run to its end. *)
Definition generator (u : upstream) : list pystr * gen_end :=
  match u with
  | PostRaises | StatusRaises => ([ERROR], Returned)
  | Responds ls fin =>
      let r := relay_loop ls fin in
      match stop r with
      | Finished => (frames r ++ [END_OF_STREAM], Returned)
      | Raised e =>
          if is_request_exception e then (frames r ++ [ERROR], Returned)
          else (frames r, Propagated e)
      | LoopStuck => (frames r, GenStuck)
      end
  end.

(** A decoded chunk of the backend: an object with a text in [response]
    and a truth value in [done]. *)
Definition fragment_chunk (r : pystr) (b : bool) : pyval :=
  PyDict (<[response_key := PyStr r]> (<[done_key := PyBool b]> ∅)).

(** A value that [clean_response] takes without raising: a falsy value or
    a string. *)
Definition cleanable (v : pyval) : bool :=
  negb (truthy v) || isinstance_str v.

(** A line that the loop body takes without raising: an empty line, or an
    object whose [response], if any, is cleanable. *)
Definition well_formed (chunk : line) : bool :=
  match chunk with
  | EmptyLine => true
  | BadLine => false
  | JsonLine (PyDict d) =>
      match d !! response_key with
      | Some v => cleanable v
      | None => true
      end
  | JsonLine _ => false
  end.

(** A malformed line: non-empty, and either it does not decode or what it
    decodes to is no object. *)
Definition malformed (chunk : line) : bool :=
  match chunk with
  | EmptyLine => false
  | BadLine => true
  | JsonLine (PyDict _) => false
  | JsonLine _ => true
  end.

(** The frames yielded while the loop goes through [ls]. *)
Definition frames_of (ls : list line) : list pystr :=
  List.concat (List.map (fun chunk => (loop_body chunk).1) ls).

(** ** [generate]: from the request body to the prompt *)

Definition text_key : pystr := lit "text".
Definition task_key : pystr := lit "task".

(** [data.get('text', '')] and [data.get('task', 'translate')]: the default
    stands for a missing key only. *)
Definition request_text (data : gmap pystr pyval) : pyval :=
  default (PyStr []) (data !! text_key).

Definition request_task (data : gmap pystr pyval) : pyval :=
  default translate_task (data !! task_key).

(** The tasks that select a template in [create_prompt]. *)
Definition recognized (task : pyval) : bool :=
  py_eq_str task (lit "translate") || py_eq_str task (lit "tokenize")
  || py_eq_str task (lit "rephrase").

(** [str(v)], as an f-string embeds a value.  [format_value] gives the
    text of a string, [None], a truth value, an integer, a zero float and
    an empty container; what Python prints for the other values (non-zero
    floats, non-empty lists and objects) is not written out here and is
    the parameter [str_rest]. *)
Definition py_str (str_rest : pyval -> pystr) (v : pyval) : pystr :=
  match format_value v with
  | Some t => t
  | None => str_rest v
  end.

(** [create_prompt] as [generate] calls it, on a text that may be any value
    of the request: a template embeds [str(text)] through its f-string, and
    the fallback returns the value itself. *)
Definition create_prompt_value (str_rest : pyval -> pystr)
    (text task : pyval) (source_lang : pystr) : pyval :=
  if recognized task then
    PyStr (create_prompt (py_str str_rest text) task source_lang)
  else text.

(** The prompt that [generate] builds for the body [data] of the request:
    [data.get] raises [AttributeError] on a body that is no object. *)
Definition generate_prompt (str_rest : pyval -> pystr) (data : pyval)
    : result pyval :=
  match data with
  | PyDict d =>
      let original_text := request_text d in
      let task := request_task d in
      let source_language := source_language original_text in
      Ok (create_prompt_value str_rest original_text task source_language)
  | _ => Raise AttributeError
  end.

(** The opening of every template. *)
Definition user_turn : pystr := lit "<start_of_turn>user" ++ nl.

(** A line that is not skipped by [if chunk]. *)
Definition nonempty_line (chunk : line) : bool :=
  match chunk with EmptyLine => false | _ => true end.

(** The lines of a backend that streams the texts [rs], none marked done. *)
Definition text_lines (rs : list pystr) : list line :=
  List.map (fun r => JsonLine (fragment_chunk r false)) rs.

(** * Properties *)

(** ** Strings *)

Lemma lit_app (a b : string) : lit (a ++ b) = lit a ++ lit b.
Proof.
  unfold lit. induction a as [|c a IH]; simpl; [done|].
  by rewrite IH.
Qed.

Lemma infix_refl (s : pystr) : infix s s.
Proof. exists [], []. by rewrite app_nil_r. Qed.

Lemma infix_app_l (sub s t : pystr) : infix sub s -> infix sub (t ++ s).
Proof.
  intros (pre & post & ->). exists (t ++ pre), post. by rewrite <- app_assoc.
Qed.

Lemma infix_app_r (sub s t : pystr) : infix sub s -> infix sub (s ++ t).
Proof.
  intros (pre & post & ->). exists pre, (post ++ t).
  by rewrite <- !app_assoc.
Qed.

Lemma infix_here (sub post : pystr) : infix sub (sub ++ post).
Proof. apply infix_app_r, infix_refl. Qed.

Lemma starts_with_prefix (sub s : pystr) :
  starts_with sub s = true <-> exists post, s = sub ++ post.
Proof.
  revert s. induction sub as [|a sub IH]; intros s; simpl.
  - split; [intros _; by exists s | done].
  - destruct s as [|b s]; simpl.
    + split; [done | intros (post & H); discriminate H].
    + rewrite andb_true_iff, N.eqb_eq, IH. split.
      * intros (-> & post & ->). by exists post.
      * intros (post & H). injection H as -> ->. split; [done | by exists post].
Qed.

Lemma contains_infix (sub s : pystr) :
  contains sub s = true <-> infix sub s.
Proof.
  induction s as [|b s IH]; simpl.
  - rewrite orb_false_r, starts_with_prefix. split.
    + intros (post & H). exists [], post. done.
    + intros (pre & post & H). destruct pre; simpl in H.
      * by exists post.
      * discriminate H.
  - rewrite orb_true_iff, starts_with_prefix, IH. split.
    + intros [(post & ->) | (pre & post & ->)].
      * by exists [], post.
      * by exists (b :: pre), post.
    + intros (pre & post & H). destruct pre as [|c pre]; simpl in H.
      * left. by exists post.
      * right. injection H as -> ->. by exists pre, post.
Qed.

(** ** The cleaner as one filter *)

Lemma arabic_diacritics_spec (c : N) :
  arabic_diacritics c = true <-> Diacritic c.
Proof.
  unfold arabic_diacritics, in_range, Diacritic.
  rewrite orb_true_iff, andb_true_iff, !N.leb_le, N.eqb_eq. done.
Qed.

Lemma arabic_block_spec (c : N) :
  arabic_block c = true <-> InArabicBlock c.
Proof.
  unfold arabic_block, in_range, InArabicBlock.
  by rewrite andb_true_iff, !N.leb_le.
Qed.

Lemma re_sub_class_delete (cls : N -> bool) (s : pystr) :
  re_sub_class cls [] s = List.filter (fun c => negb (cls c)) s.
Proof.
  unfold re_sub_class. induction s as [|c s IH]; simpl; [done|].
  rewrite IH. by destruct (cls c).
Qed.

Lemma str_replace_char_delete (old : N) (s : pystr) :
  str_replace_char old [] s = List.filter (fun c => negb (c =? old)) s.
Proof.
  induction s as [|c s IH]; simpl; [done|].
  rewrite IH. by destruct (c =? old).
Qed.

Lemma clean_str_filter (s : pystr) :
  clean_str s = filter (fun c => ¬ Removed c) s.
Proof.
  unfold clean_str. rewrite re_sub_class_delete, str_replace_char_delete.
  induction s as [|c s IH]; simpl; [done|].
  rewrite filter_cons.
  destruct (arabic_diacritics c) eqn:Hd; simpl.
  - rewrite IH. rewrite decide_False; [done|].
    intros H. apply H. left. by apply arabic_diacritics_spec.
  - destruct (c =? question_mark) eqn:Hq; simpl.
    + rewrite IH. rewrite decide_False; [done|].
      intros H. apply H. right. by apply N.eqb_eq.
    + rewrite IH. rewrite decide_True; [done|].
      intros [H | H].
      * apply arabic_diacritics_spec in H. congruence.
      * apply N.eqb_neq in Hq. done.
Qed.

Lemma clean_str_fixed (s : pystr) :
  Forall (fun c => ¬ Removed c) s -> clean_str s = s.
Proof.
  intros H. rewrite clean_str_filter.
  induction H as [|c s Hc Hs IH]; [done|].
  rewrite filter_cons, decide_True by done. by rewrite IH.
Qed.

Lemma clean_str_clean (s : pystr) :
  Forall (fun c => ¬ Removed c) (clean_str s).
Proof.
  rewrite clean_str_filter. apply Forall_forall.
  intros c Hc. by apply list_elem_of_filter in Hc as [Hc _].
Qed.

Lemma clean_response_str (s : pystr) :
  clean_response (PyStr s) = Ok (PyStr (clean_str s)).
Proof.
  unfold clean_response. simpl. case_bool_decide as Hs; simpl; [|done].
  by subst s.
Qed.

(** C3: for every input string, [clean_response] returns the input with
    every Arabic diacritic (U+064B to U+065F, U+0670) and every question
    mark removed and every other character kept, in order; the empty string
    and [None] come back unchanged; and the marked word followed by a
    question mark is cleaned to the bare word. *)
Theorem clean_response_removes_marks :
  (forall s : pystr,
      clean_response (PyStr s) = Ok (PyStr (filter (fun c => ~ Removed c) s)))
  /\ clean_response (PyStr []) = Ok (PyStr [])
  /\ clean_response PyNone = Ok PyNone
  /\ clean_response (PyStr marhaban_marked) = Ok (PyStr marhaba).
Proof.
  split; [|split; [|split]].
  - intros s. by rewrite clean_response_str, clean_str_filter.
  - reflexivity.
  - reflexivity.
  - rewrite clean_response_str. f_equal.
Qed.

(** ** The language detector *)

Lemma is_arabic_str (s : pystr) :
  is_arabic (PyStr s) = existsb arabic_block s.
Proof.
  unfold is_arabic, re_search_class. simpl.
  case_bool_decide as Hs; simpl; [by subst s | done].
Qed.

Lemma is_arabic_not_str (v : pyval) :
  isinstance_str v = false -> is_arabic v = false.
Proof.
  intros Hv. unfold is_arabic. rewrite Hv. simpl.
  by rewrite orb_true_r.
Qed.

(** C4: a text with at least one character of the Arabic block (U+0600 to
    U+06FF) is classified as Arabic; a text of ASCII characters only, the
    empty text, [None] and every value that is no string are classified as
    English.  [is_arabic] is a total function: no input raises. *)
Theorem is_arabic_classifies (s : pystr) (v : pyval) :
  (Exists InArabicBlock s ->
     is_arabic (PyStr s) = true /\ source_language (PyStr s) = Arabic)
  /\ (Forall (fun c => c < 128) s ->
     is_arabic (PyStr s) = false /\ source_language (PyStr s) = English)
  /\ (is_arabic (PyStr []) = false /\ source_language (PyStr []) = English)
  /\ (is_arabic PyNone = false /\ source_language PyNone = English)
  /\ (isinstance_str v = false ->
     is_arabic v = false /\ source_language v = English).
Proof.
  assert (Hsrc : forall x, is_arabic x = false -> source_language x = English).
  { intros x Hx. unfold source_language. by rewrite Hx. }
  split; [|split; [|split; [|split]]].
  - intros Hex. assert (Ha : is_arabic (PyStr s) = true).
    { rewrite is_arabic_str. apply existsb_exists.
      apply Exists_exists in Hex as (c & Hc & Hblock).
      exists c. split; [by apply list_elem_of_In | by apply arabic_block_spec]. }
    split; [done|]. unfold source_language. by rewrite Ha.
  - intros Hall. assert (Ha : is_arabic (PyStr s) = false).
    { rewrite is_arabic_str. apply not_true_is_false. intros Hex.
      apply existsb_exists in Hex as (c & Hc & Hblock).
      apply arabic_block_spec in Hblock as [Hlo _].
      apply list_elem_of_In in Hc.
      rewrite Forall_forall in Hall. specialize (Hall c Hc). lia. }
    split; [done | by apply Hsrc].
  - split; [done | by apply Hsrc].
  - split; [done | by apply Hsrc].
  - intros Hv. split; [by apply is_arabic_not_str | by apply Hsrc, is_arabic_not_str].
Qed.

Lemma is_arabic_classifies_witness :
  source_language (PyStr marhaba) = Arabic
  /\ source_language (PyStr (lit "Hello world")) = English
  /\ source_language (PyInt 7) = English.
Proof.
  split; [|split].
  - destruct (is_arabic_classifies marhaba PyNone) as (H & _).
    apply H. apply Exists_cons_hd. unfold InArabicBlock. lia.
  - destruct (is_arabic_classifies (lit "Hello world") PyNone) as (_ & H & _).
    apply H. apply Forall_forall. intros c Hc.
    apply list_elem_of_In in Hc. vm_compute in Hc.
    repeat (destruct Hc as [<- | Hc]; [reflexivity|]). destruct Hc.
  - destruct (is_arabic_classifies [] (PyInt 7)) as (_ & _ & _ & _ & H).
    apply H. reflexivity.
Defined.

(** ** Idempotence of the cleaner *)

Lemma clean_response_twice (v : pyval) :
  bind (clean_response v) clean_response = clean_response v.
Proof.
  unfold clean_response at 1 3.
  destruct (truthy v) eqn:Hv; simpl.
  - destruct v; try done. simpl.
    rewrite clean_response_str. f_equal. f_equal.
    apply clean_str_fixed, clean_str_clean.
  - unfold clean_response. by rewrite Hv.
Qed.

(** C9: cleaning is idempotent: for every string [t], cleaning the cleaned
    string gives the cleaned string again, and a string that holds no
    Arabic diacritic and no question mark is returned as it is. *)
Theorem clean_response_idempotent (t : pystr) :
  bind (clean_response (PyStr t)) clean_response = clean_response (PyStr t)
  /\ clean_str (clean_str t) = clean_str t
  /\ (Forall (fun c => ~ Removed c) t ->
      clean_response (PyStr t) = Ok (PyStr t)).
Proof.
  split; [|split].
  - apply clean_response_twice.
  - apply clean_str_fixed, clean_str_clean.
  - intros Ht. rewrite clean_response_str. by rewrite clean_str_fixed.
Qed.

Lemma clean_response_idempotent_witness :
  clean_response (PyStr marhaba) = Ok (PyStr marhaba).
Proof.
  destruct (clean_response_idempotent marhaba) as (_ & _ & H).
  apply H. unfold marhaba.
  repeat (apply Forall_cons; split;
          [unfold Removed, Diacritic; cbv beta; lia|]).
  constructor.
Defined.

(** ** Occurrences of a fixed string around an embedded text *)

Lemma agrees_app (r x y b : pystr) : x ++ y = r ++ b -> agrees r x = true.
Proof.
  revert x. induction r as [|a r IH]; intros x H; [done|].
  destruct x as [|c x]; [done|]. simpl in *.
  injection H as -> H. rewrite N.eqb_refl. simpl. by apply IH.
Qed.

Lemma infix_skip_prefix (r pre s : pystr) :
  no_start_in r pre = true -> infix r (pre ++ s) -> infix r s.
Proof.
  induction pre as [|c pre IH]; intros Hno Hin; [done|].
  simpl in Hno. apply andb_true_iff in Hno as [Hhere Hno].
  apply IH; [done|].
  destruct Hin as (a & b & H). destruct a as [|c' a].
  - simpl in H. change (c :: pre ++ s) with ((c :: pre) ++ s) in H.
    apply agrees_app in H. rewrite H in Hhere. done.
  - simpl in H. injection H as _ H. by exists a, b.
Qed.

Lemma infix_rev (r s : pystr) : infix r s -> infix (rev r) (rev s).
Proof.
  intros (a & b & ->). exists (rev b), (rev a).
  by rewrite !rev_app_distr, <- app_assoc.
Qed.

Lemma infix_skip_suffix (r s post : pystr) :
  no_start_in (rev r) (rev post) = true -> infix r (s ++ post) -> infix r s.
Proof.
  intros Hno Hin. apply infix_rev in Hin. rewrite rev_app_distr in Hin.
  apply infix_skip_prefix in Hin; [|done].
  apply infix_rev in Hin. by rewrite !rev_involutive in Hin.
Qed.

Lemma infix_embedded (r pre s post : pystr) :
  no_start_in r pre = true ->
  no_start_in (rev r) (rev post) = true ->
  infix r (pre ++ s ++ post) <-> infix r s.
Proof.
  intros Hpre Hpost. split.
  - intros H. apply infix_skip_prefix in H; [|done].
    by apply infix_skip_suffix in H.
  - intros H. by apply infix_app_l, infix_app_r.
Qed.

(** ** The prompt builder, branch by branch *)

Lemma py_eq_str_spec (v : pyval) (s : pystr) :
  py_eq_str v s = true <-> v = PyStr s.
Proof.
  destruct v; simpl; try done.
  rewrite bool_decide_eq_true. split; [by intros -> | by intros [= ->]].
Qed.

Lemma py_eq_str_false (v : pyval) (s : pystr) :
  v <> PyStr s -> py_eq_str v s = false.
Proof.
  intros H. apply not_true_is_false. by rewrite py_eq_str_spec.
Qed.

Lemma create_prompt_translate (text source_lang : pystr) :
  create_prompt text (PyStr (lit "translate")) source_lang =
  if bool_decide (target_lang_of source_lang = Arabic) then
    translate_template source_lang (target_lang_of source_lang)
      diacritics_rule_arabic
      (other_rules_arabic source_lang (target_lang_of source_lang)) text
  else
    translate_template source_lang (target_lang_of source_lang) []
      (other_rules_english source_lang (target_lang_of source_lang)) text.
Proof. reflexivity. Qed.

Lemma create_prompt_tokenize (text source_lang : pystr) :
  create_prompt text (PyStr (lit "tokenize")) source_lang =
  tokenize_template source_lang (tag_lang_of source_lang)
    (json_key_of source_lang) text.
Proof. reflexivity. Qed.

Lemma create_prompt_rephrase (text source_lang : pystr) :
  create_prompt text (PyStr (lit "rephrase")) source_lang =
  rephrase_template source_lang text.
Proof. reflexivity. Qed.

Lemma create_prompt_other (text : pystr) (task : pyval) (source_lang : pystr) :
  task <> PyStr (lit "translate") ->
  task <> PyStr (lit "tokenize") ->
  task <> PyStr (lit "rephrase") ->
  create_prompt text task source_lang = text.
Proof.
  intros H1 H2 H3. unfold create_prompt.
  by rewrite !py_eq_str_false.
Qed.

Lemma translate_template_shape (sl tl dr rules text : pystr) :
  infix text (translate_template sl tl dr rules text)
  /\ translate_template sl tl dr rules text <> [].
Proof.
  split; [|done].
  by exists (translate_head sl tl dr rules), translate_tail.
Qed.

Lemma tokenize_template_shape (sl tag key text : pystr) :
  infix text (tokenize_template sl tag key text)
  /\ tokenize_template sl tag key text <> [].
Proof.
  split; [|done].
  by exists (tokenize_head sl), (tokenize_tail tag key).
Qed.

Lemma rephrase_template_shape (sl text : pystr) :
  infix text (rephrase_template sl text)
  /\ rephrase_template sl text <> [].
Proof.
  split; [|done].
  by exists (rephrase_head sl), (dquote ++ end_of_turn).
Qed.

(** The output of [create_prompt] is one of the three templates or, for
    every other task, the text itself. *)
Lemma create_prompt_cases (text : pystr) (task : pyval) (sl : pystr) :
  (task = PyStr (lit "translate")
   /\ exists tl dr rules,
        create_prompt text task sl = translate_template sl tl dr rules text)
  \/ (task = PyStr (lit "tokenize")
   /\ exists tag key,
        create_prompt text task sl = tokenize_template sl tag key text)
  \/ (task = PyStr (lit "rephrase")
   /\ create_prompt text task sl = rephrase_template sl text)
  \/ (task <> PyStr (lit "translate") /\ task <> PyStr (lit "tokenize")
   /\ task <> PyStr (lit "rephrase")
   /\ create_prompt text task sl = text).
Proof.
  destruct (py_eq_str task (lit "translate")) eqn:H1.
  { left. apply py_eq_str_spec in H1 as ->. split; [done|].
    rewrite create_prompt_translate. case_bool_decide; eauto. }
  destruct (py_eq_str task (lit "tokenize")) eqn:H2.
  { right; left. apply py_eq_str_spec in H2 as ->. split; [done|].
    rewrite create_prompt_tokenize. eauto. }
  destruct (py_eq_str task (lit "rephrase")) eqn:H3.
  { right; right; left. apply py_eq_str_spec in H3 as ->. done. }
  right; right; right.
  assert (N1 : task <> PyStr (lit "translate")).
  { intros E. apply py_eq_str_spec in E. congruence. }
  assert (N2 : task <> PyStr (lit "tokenize")).
  { intros E. apply py_eq_str_spec in E. congruence. }
  assert (N3 : task <> PyStr (lit "rephrase")).
  { intros E. apply py_eq_str_spec in E. congruence. }
  repeat split; try done. by apply create_prompt_other.
Qed.

(** ** What the prompt holds *)

(** C5, as stated, fails: for a task outside the three templates the output
    is the text itself, so the empty text gives the empty output. *)
Lemma create_prompt_empty_output :
  create_prompt [] (PyStr (lit "summarize")) English = []
  /\ ~ (create_prompt [] (PyStr (lit "summarize")) English <> []
        /\ infix [] (create_prompt [] (PyStr (lit "summarize")) English)).
Proof.
  assert (H : create_prompt [] (PyStr (lit "summarize")) English = []).
  { by apply create_prompt_other. }
  split; [done|]. intros [Hne _]. by apply Hne.
Qed.

(** C5, amended: for every text and every task value the output holds the
    text verbatim as a contiguous substring; the output is empty exactly
    when the text is empty and the task is none of [translate], [tokenize],
    [rephrase], so it is non-empty for every recognized task and for every
    non-empty text. *)
Theorem create_prompt_embeds_text
    (text : pystr) (task : pyval) (source_lang : pystr) :
  infix text (create_prompt text task source_lang)
  /\ (create_prompt text task source_lang = [] <->
      text = [] /\ task <> translate_task /\ task <> tokenize_task
      /\ task <> rephrase_task).
Proof.
  destruct (create_prompt_cases text task source_lang)
    as [(-> & tl & dr & rules & ->) | [(-> & tag & key & ->)
       | [(-> & ->) | (N1 & N2 & N3 & ->)]]].
  - destruct (translate_template_shape source_lang tl dr rules text) as [Hin Hne].
    split; [done|]. split; [done | by intros (_ & H & _)].
  - destruct (tokenize_template_shape source_lang tag key text) as [Hin Hne].
    split; [done|]. split; [done | by intros (_ & _ & H & _)].
  - destruct (rephrase_template_shape source_lang text) as [Hin Hne].
    split; [done|]. split; [done | by intros (_ & _ & _ & H)].
  - split; [apply infix_refl|]. split; [done | by intros (H & _)].
Qed.

Lemma create_prompt_embeds_text_witness :
  infix (lit "Hello world")
    (create_prompt (lit "Hello world") rephrase_task English)
  /\ create_prompt [] translate_task English <> [].
Proof.
  split.
  - apply (create_prompt_embeds_text (lit "Hello world") rephrase_task English).
  - destruct (create_prompt_embeds_text [] translate_task English) as [_ [H _]].
    intros E. by destruct (H E) as (_ & N & _).
Defined.

(** C8: for every task value outside [translate], [tokenize] and
    [rephrase] (a string or any other value) and every text, the output is
    the text, unchanged; [create_prompt] is total, so nothing is raised. *)
Theorem create_prompt_fallback
    (text : pystr) (task : pyval) (source_lang : pystr) :
  task <> translate_task ->
  task <> tokenize_task ->
  task <> rephrase_task ->
  create_prompt text task source_lang = text.
Proof.
  intros N1 N2 N3.
  destruct (create_prompt_cases text task source_lang)
    as [(E & _) | [(E & _) | [(E & _) | (_ & _ & _ & H)]]]; done.
Qed.

Lemma create_prompt_fallback_witness :
  create_prompt (lit "Hello world") (PyStr (lit "summarize")) English
    = lit "Hello world"
  /\ create_prompt marhaba PyNone Arabic = marhaba.
Proof.
  split.
  - apply (create_prompt_fallback (lit "Hello world")
             (PyStr (lit "summarize")) English); discriminate.
  - apply (create_prompt_fallback marhaba PyNone Arabic); discriminate.
Defined.

Lemma translate_template_instructs (sl tl dr rules text : pystr) :
  infix (translate_instruction sl tl) (translate_template sl tl dr rules text).
Proof.
  exists (lit "<start_of_turn>user" ++ nl ++
          lit "You are a direct translation engine. ").
  eexists. unfold translate_template, translate_head, translate_instruction.
  rewrite <- !app_assoc. reflexivity.
Qed.

Lemma translate_template_rule (sl tl dr rules text : pystr) :
  infix dr (translate_template sl tl dr rules text).
Proof.
  exists (lit "<start_of_turn>user" ++ nl ++
          lit "You are a direct translation engine. Translate the provided " ++
          sl ++ lit " text to " ++ tl ++ lit "." ++ nl ++ nl ++
          lit "Follow these rules exactly:" ++ nl).
  eexists. unfold translate_template, translate_head.
  rewrite <- !app_assoc. reflexivity.
Qed.

Ltac find_infix :=
  repeat first [ apply infix_here | apply infix_refl | apply infix_app_l ].

Lemma translate_prompt_english_source (text : pystr) :
  create_prompt text translate_task English =
  translate_template English Arabic diacritics_rule_arabic
    (other_rules_arabic English Arabic) text.
Proof. unfold translate_task. by rewrite create_prompt_translate. Qed.

Lemma translate_prompt_arabic_source (text : pystr) :
  create_prompt text translate_task Arabic =
  translate_head Arabic English [] (other_rules_english Arabic English) ++
  text ++ translate_tail.
Proof. unfold translate_task. by rewrite create_prompt_translate. Qed.

Lemma infix_both_sides (w head text tail : pystr) :
  w <> [] ->
  no_start_in w head = true ->
  no_start_in (rev w) (rev tail) = true ->
  contains w head = false /\ contains w tail = false
  /\ (infix w (head ++ text ++ tail) <-> infix w text).
Proof.
  intros Hw Hh Ht.
  assert (Hmid : forall t, infix w (head ++ t ++ tail) <-> infix w t).
  { intros t. by apply infix_embedded. }
  assert (Hnil : ~ infix w []).
  { intros (pre & post & E). destruct pre; [|discriminate E].
    by destruct w. }
  split; [|split; [|apply Hmid]].
  - apply not_true_is_false. rewrite contains_infix. intros Hin.
    apply Hnil, (Hmid []). simpl. by apply infix_app_r.
  - apply not_true_is_false. rewrite contains_infix. intros Hin.
    apply Hnil, (Hmid []). simpl. by apply infix_app_l.
Qed.

(** C6: for [translate] the target is the opposite language.  With source
    English the prompt instructs translation to Arabic and holds the rule
    that forbids Arabic diacritics and question marks, with its example.
    With source Arabic the prompt instructs translation to English and is
    the input text between a head and a tail that hold neither that rule
    nor any of its words ([diacritics], [Tashkeel], [question mark]) nor a
    question mark: the instruction set leaves the rule out, and such a word
    is in the prompt only when the input text itself brings it. *)
Theorem translate_prompt_direction (text : pystr) :
  let translate := PyStr (lit "translate") in
  let from_english := create_prompt text translate (lit "English") in
  let from_arabic := create_prompt text translate (lit "Arabic") in
  let rule :=
    lit "1. **ABSOLUTELY CRITICAL**: Your response MUST NOT contain any Arabic diacritics (Tashkeel / formations)."
    ++ [10] ++ lit "   - **Example (Good)**: "
    ++ [34; 0x0645; 0x0631; 0x062D; 0x0628; 0x0627; 34]
    ++ [10] ++ lit "2. **CRITICAL**: Do NOT output any question mark `?` characters." in
  let rule_words :=
    [rule; lit "diacritics"; lit "Tashkeel"; lit "question mark"; lit "?"] in
  target_lang_of (lit "English") = lit "Arabic"
  /\ target_lang_of (lit "Arabic") = lit "English"
  /\ infix (lit "Translate the provided English text to Arabic.") from_english
  /\ infix rule from_english
  /\ infix (lit "Translate the provided Arabic text to English.") from_arabic
  /\ (exists head tail,
        (forall t, create_prompt t translate (lit "Arabic") = head ++ t ++ tail)
        /\ Forall (fun w => contains w head = false /\ contains w tail = false)
             rule_words)
  /\ Forall (fun w => infix w from_arabic <-> infix w text) rule_words.
Proof.
  cbv zeta.
  change (PyStr (lit "translate")) with translate_task.
  change (lit "English") with English. change (lit "Arabic") with Arabic.
  split; [done|]. split; [done|].
  split.
  { rewrite translate_prompt_english_source.
    apply (translate_template_instructs English Arabic). }
  split.
  { rewrite translate_prompt_english_source.
    apply (translate_template_rule English Arabic diacritics_rule_arabic). }
  split.
  { rewrite translate_prompt_arabic_source.
    apply (translate_template_instructs Arabic English []
             (other_rules_english Arabic English) text). }
  split.
  { exists (translate_head Arabic English []
              (other_rules_english Arabic English)), translate_tail.
    split; [apply translate_prompt_arabic_source|].
    repeat (apply Forall_cons; split;
            [split; by vm_compute|]).
    constructor. }
  rewrite translate_prompt_arabic_source.
  repeat (apply Forall_cons; split;
          [apply infix_both_sides; [discriminate | by vm_compute ..]|]).
  constructor.
Qed.

(** ** The key of the tokenize template *)

Lemma tokenize_template_key (sl tag key text : pystr) :
  infix (json_template key) (tokenize_template sl tag key text).
Proof.
  unfold tokenize_template, tokenize_tail, tokenize_head.
  rewrite <- !app_assoc. find_infix.
Qed.

Lemma tokenize_prompt_split (text source_lang : pystr) :
  create_prompt text tokenize_task source_lang
  = tokenize_head source_lang ++ text
    ++ tokenize_tail (tag_lang_of source_lang) (json_key_of source_lang).
Proof. unfold tokenize_task. by rewrite create_prompt_tokenize. Qed.

(** C7: for [tokenize] the prompt holds, under the line that asks to copy
    the template, the JSON template with the key [arabic_tags] when the
    source language is Arabic and with [english_tags] when it is English;
    the key is a function of the source language, and with the detected
    language it follows [is_arabic].  The other key is in the prompt only
    when the input text itself brings it. *)
Theorem tokenize_prompt_json_key (text : pystr) (original_text : pyval) :
  let tokenize := PyStr (lit "tokenize") in
  let template key :=
    lit "COPY AND PASTE THIS TEMPLATE, THEN FILL IT IN:" ++ [10]
    ++ lit "{" ++ [34] ++ key ++ [34] ++ lit ": []}" ++ [10] in
  json_key_of (lit "Arabic") = lit "arabic_tags"
  /\ json_key_of (lit "English") = lit "english_tags"
  /\ json_key_of (source_language original_text) =
       (if is_arabic original_text then lit "arabic_tags"
        else lit "english_tags")
  /\ infix (template (lit "arabic_tags"))
       (create_prompt text tokenize (lit "Arabic"))
  /\ infix (template (lit "english_tags"))
       (create_prompt text tokenize (lit "English"))
  /\ (infix (lit "english_tags") (create_prompt text tokenize (lit "Arabic"))
      <-> infix (lit "english_tags") text)
  /\ (infix (lit "arabic_tags") (create_prompt text tokenize (lit "English"))
      <-> infix (lit "arabic_tags") text).
Proof.
  cbv zeta.
  change (PyStr (lit "tokenize")) with tokenize_task.
  change (lit "English") with English. change (lit "Arabic") with Arabic.
  split; [done|]. split; [done|]. split.
  { unfold source_language. by destruct (is_arabic original_text). }
  rewrite !tokenize_prompt_split.
  split.
  { apply infix_app_l, infix_app_l, contains_infix. by vm_compute. }
  split.
  { apply infix_app_l, infix_app_l, contains_infix. by vm_compute. }
  split; (apply infix_both_sides; [discriminate | by vm_compute ..]).
Qed.

(** ** The relay loop *)

Lemma clean_response_formats (v c : pyval) :
  clean_response v = Ok c -> is_Some (format_value c).
Proof.
  unfold clean_response. destruct (truthy v) eqn:Hv; simpl.
  - destruct v; try done. intros [= <-]. by eexists.
  - intros [= <-]. destruct v as [| b | z | f | s | l | d]; simpl in *.
    + by eexists.
    + destruct b; by eexists.
    + by eexists.
    + destruct f as [[] | | |]; try done; by eexists.
    + by eexists.
    + destruct l; [by eexists | done].
    + apply negb_false_iff in Hv. rewrite Hv. by eexists.
Qed.

Lemma yield_response_not_stuck (v : pyval) : (yield_response v).2 <> Stuck.
Proof.
  unfold yield_response.
  destruct (contains_response v) as [[] | e]; try done.
  destruct (getitem_response v) as [raw | e]; try done.
  destruct (is_none raw); try done.
  destruct (clean_response raw) as [c | e] eqn:Hc; try done.
  apply clean_response_formats in Hc as [s ->]. done.
Qed.

Lemma loop_body_not_stuck (chunk : line) : (loop_body chunk).2 <> Stuck.
Proof.
  destruct chunk as [| | v]; try done. simpl.
  pose proof (yield_response_not_stuck v) as H.
  destruct (yield_response v) as [out []]; try done.
  simpl. unfold check_done.
  destruct (get_done v) as [x | e]; [by destruct (truthy x) | done].
Qed.

(** The model covers every run: the loop never meets a value whose text
    [format_value] leaves out. *)
Lemma relay_loop_not_stuck (ls : list line) (fin : stream_end) :
  stop (relay_loop ls fin) <> LoopStuck.
Proof.
  induction ls as [|chunk rest IH]; simpl.
  - by destruct fin.
  - pose proof (loop_body_not_stuck chunk) as H.
    destruct (loop_body chunk) as [out []]; done.
Qed.

Lemma generator_not_stuck (u : upstream) : (generator u).2 <> GenStuck.
Proof.
  destruct u as [| | ls fin]; try done. simpl.
  pose proof (relay_loop_not_stuck ls fin) as H.
  destruct (stop (relay_loop ls fin)) as [| e |]; try done.
  by destruct (is_request_exception e).
Qed.

Lemma sentinels_differ : END_OF_STREAM <> ERROR.
Proof. discriminate. Qed.

(** When the generator returns, its stream is a run of frames closed by
    one sentinel: [END_OF_STREAM] after a loop that finished, [ERROR] after
    an exception of the [requests] library. *)
Lemma generator_returned (u : upstream) (fs : list pystr) :
  generator u = (fs, Returned) ->
  (u = PostRaises \/ u = StatusRaises) /\ fs = [ERROR]
  \/ exists ls fin,
       u = Responds ls fin
       /\ (stop (relay_loop ls fin) = Finished
           /\ fs = frames (relay_loop ls fin) ++ [END_OF_STREAM]
           \/ stop (relay_loop ls fin) = Raised RequestException
           /\ fs = frames (relay_loop ls fin) ++ [ERROR]).
Proof.
  destruct u as [| | ls fin]; simpl.
  - intros [= <-]. left. eauto.
  - intros [= <-]. left. eauto.
  - intros H. right. exists ls, fin. split; [done|].
    destruct (stop (relay_loop ls fin)) as [| e |]; try done.
    + left. by injection H as <-.
    + right. destruct e; simpl in H; try done. by injection H as <-.
Qed.

Lemma generator_propagates (ls : list line) (fin : stream_end) (e : exn) :
  stop (relay_loop ls fin) = Raised e ->
  is_request_exception e = false ->
  generator (Responds ls fin) = (frames (relay_loop ls fin), Propagated e).
Proof. intros Hs He. simpl. by rewrite Hs, He. Qed.

Lemma loop_body_not_object (v : pyval) :
  match v with
  | PyDict _ => True
  | _ => exists e, is_request_exception e = false
                   /\ loop_body (JsonLine v) = ([], Throw e)
  end.
Proof.
  destruct v as [| b | z | f | s | l | d]; try done;
    try (by exists TypeError).
  - simpl. unfold yield_response. simpl.
    destruct (contains response_key s); [by exists TypeError|].
    by exists AttributeError.
  - simpl. unfold yield_response. simpl.
    destruct (existsb _ l); [by exists TypeError|].
    by exists AttributeError.
Qed.

Lemma relay_loop_cons (chunk : line) (rest : list line) (fin : stream_end) :
  relay_loop (chunk :: rest) fin =
  match loop_body chunk with
  | (out, Continue) =>
      let r := relay_loop rest fin in
      LoopRun (out ++ frames r) (stop r) (unread r)
  | (out, Break) => LoopRun out Finished rest
  | (out, Throw e) => LoopRun out (Raised e) rest
  | (out, Stuck) => LoopRun out LoopStuck rest
  end.
Proof. reflexivity. Qed.

Lemma relay_loop_throw (chunk : line) (rest : list line) (fin : stream_end)
    (out : list pystr) (e : exn) :
  loop_body chunk = (out, Throw e) ->
  relay_loop (chunk :: rest) fin = LoopRun out (Raised e) rest.
Proof. intros H. simpl. by rewrite H. Qed.

Lemma loop_body_malformed (chunk : line) :
  malformed chunk = true ->
  exists e, is_request_exception e = false
            /\ loop_body chunk = ([], Throw e).
Proof.
  destruct chunk as [| | v]; [done | by exists ValueError |].
  intros Hm. pose proof (loop_body_not_object v) as H.
  by destruct v.
Qed.

(** The loop reaches the line behind [before] when every line of [before]
    lets it continue. *)
Lemma relay_loop_reaches (before : list line) (chunk : line)
    (rest : list line) (fin : stream_end) (out : list pystr) (e : exn) :
  Forall (fun c => (loop_body c).2 = Continue) before ->
  loop_body chunk = (out, Throw e) ->
  relay_loop (before ++ chunk :: rest) fin
  = LoopRun (frames_of before ++ out) (Raised e) rest.
Proof.
  intros Hbefore Hchunk.
  induction Hbefore as [|c before Hc _ IH].
  - by apply relay_loop_throw.
  - rewrite <- app_comm_cons, relay_loop_cons.
    destruct (loop_body c) as [o k] eqn:Hb. simpl in Hc. subst k.
    rewrite IH. unfold frames_of. simpl. rewrite Hb. simpl.
    by rewrite <- app_assoc.
Qed.

(** C2, on the code: when the loop reaches a malformed line (one that does
    not decode, or decodes to something that is no object), an exception
    that is no [RequestException] ([ValueError], [TypeError] or
    [AttributeError]) leaves the generator: the [except] clause does not
    catch it, and the stream is the frames yielded before, with no [ERROR]
    frame behind them. *)
Theorem malformed_line_is_not_caught
    (before : list line) (chunk : line) (rest : list line) (fin : stream_end) :
  Forall (fun c => (loop_body c).2 = Continue) before ->
  malformed chunk = true ->
  exists e,
    is_request_exception e = false
    /\ generator (Responds (before ++ chunk :: rest) fin)
       = (frames_of before, Propagated e).
Proof.
  intros Hbefore Hm.
  destruct (loop_body_malformed chunk Hm) as (e & He & Hbody).
  exists e. split; [done|].
  pose proof (relay_loop_reaches before chunk rest fin [] e Hbefore Hbody)
    as Hloop.
  rewrite app_nil_r in Hloop.
  rewrite (generator_propagates _ _ e); rewrite ?Hloop; done.
Qed.

Lemma malformed_line_is_not_caught_witness :
  (exists e,
      is_request_exception e = false
      /\ generator (Responds ([] ++ [BadLine]) Closed) = ([], Propagated e))
  /\ (exists e,
      is_request_exception e = false
      /\ generator
           (Responds ([JsonLine (fragment_chunk (lit "Hi") false)]
                      ++ [JsonLine (PyInt 5); EmptyLine]) Broken)
         = ([frame (lit "Hi")], Propagated e)).
Proof.
  split.
  - apply (malformed_line_is_not_caught [] BadLine [] Closed);
      [constructor | reflexivity].
  - apply (malformed_line_is_not_caught
             [JsonLine (fragment_chunk (lit "Hi") false)]
             (JsonLine (PyInt 5)) [EmptyLine] Broken);
      [repeat constructor | reflexivity].
Defined.

(** C1, on the code: a run that meets a malformed line after a fragment
    ends with that fragment; the exception leaves the generator and the
    stream holds neither sentinel. *)
Theorem generator_bad_line_no_sentinel :
  generator
    (Responds [JsonLine (fragment_chunk (lit "Hi") false); BadLine] Closed)
  = ([frame (lit "Hi")], Propagated ValueError)
  /\ (END_OF_STREAM ∉ [frame (lit "Hi")])
  /\ (ERROR ∉ [frame (lit "Hi")]).
Proof.
  split; [|split].
  - by rewrite (generator_propagates _ _ ValueError).
  - intros H. apply list_elem_of_singleton in H. discriminate H.
  - intros H. apply list_elem_of_singleton in H. discriminate H.
Qed.

Lemma yield_response_text (d : gmap pystr pyval) (r : pystr) :
  d !! response_key = Some (PyStr r) ->
  yield_response (PyDict d) = ([frame (clean_str r)], Continue).
Proof.
  intros Hr. unfold yield_response. simpl. rewrite Hr.
  rewrite bool_decide_true by eauto.
  simpl is_none. cbv iota. by rewrite clean_response_str.
Qed.

(** C10: a decoded chunk with a text in [response] and [done] equal to
    [true] has its cleaned fragment yielded first, as the frame [data: ],
    the text without its diacritics and question marks, and two newlines,
    and the loop left after it, with the lines behind it unread, so the
    stream ends with that frame and the end sentinel; a decoded chunk
    without a [done] field counts as not done, and the loop goes on with
    the next line after the frame of the chunk. *)
Theorem final_chunk_is_relayed
    (d : gmap pystr pyval) (r : pystr) (rest : list line) (fin : stream_end) :
  let fragment :=
    lit "data: " ++ filter (fun c => ~ Removed c) r ++ [10] ++ [10] in
  let end_of_stream := lit "data: [END_OF_STREAM]" ++ [10] ++ [10] in
  (d !! lit "response" = Some (PyStr r) ->
   d !! lit "done" = Some (PyBool true) ->
   loop_body (JsonLine (PyDict d)) = ([fragment], Break)
   /\ relay_loop (JsonLine (PyDict d) :: rest) fin
      = LoopRun [fragment] Finished rest
   /\ generator (Responds (JsonLine (PyDict d) :: rest) fin)
      = ([fragment; end_of_stream], Returned))
  /\ (d !! lit "done" = None ->
      check_done (PyDict d) = Continue
      /\ (forall out,
            yield_response (PyDict d) = (out, Continue) ->
            relay_loop (JsonLine (PyDict d) :: rest) fin
            = LoopRun (out ++ frames (relay_loop rest fin))
                (stop (relay_loop rest fin)) (unread (relay_loop rest fin)))
      /\ (d !! lit "response" = Some (PyStr r) ->
          relay_loop (JsonLine (PyDict d) :: rest) fin
          = LoopRun (fragment :: frames (relay_loop rest fin))
              (stop (relay_loop rest fin)) (unread (relay_loop rest fin)))).
Proof.
  cbv zeta. rewrite <- clean_str_filter.
  change (lit "response") with response_key.
  change (lit "done") with done_key.
  change (lit "data: " ++ clean_str r ++ [10] ++ [10])
    with (frame (clean_str r)).
  change (lit "data: [END_OF_STREAM]" ++ [10] ++ [10]) with END_OF_STREAM.
  split.
  - intros Hr Hd.
    assert (Hbody : loop_body (JsonLine (PyDict d))
                    = ([frame (clean_str r)], Break)).
    { simpl. rewrite (yield_response_text d r Hr).
      unfold check_done. simpl. by rewrite Hd. }
    assert (Hloop : relay_loop (JsonLine (PyDict d) :: rest) fin
                    = LoopRun [frame (clean_str r)] Finished rest).
    { by rewrite relay_loop_cons, Hbody. }
    split; [done|]. split; [done|].
    unfold generator. by rewrite Hloop.
  - intros Hd.
    assert (Hc : check_done (PyDict d) = Continue).
    { unfold check_done. simpl. by rewrite Hd. }
    split; [done|]. split.
    + intros out Hy. simpl. by rewrite Hy, Hc.
    + intros Hr. rewrite relay_loop_cons. simpl loop_body.
      by rewrite (yield_response_text d r Hr), Hc.
Qed.

Lemma final_chunk_is_relayed_witness :
  generator
    (Responds [JsonLine (fragment_chunk marhaban_marked true);
               JsonLine (fragment_chunk (lit "never read") false)] Closed)
  = ([lit "data: " ++ marhaba ++ [10; 10];
      lit "data: [END_OF_STREAM]" ++ [10; 10]], Returned)
  /\ check_done (PyDict (<[response_key := PyStr (lit "Hi")]> ∅)) = Continue.
Proof.
  split.
  - destruct (final_chunk_is_relayed
                (<[response_key := PyStr marhaban_marked]>
                   (<[done_key := PyBool true]> ∅))
                marhaban_marked
                [JsonLine (fragment_chunk (lit "never read") false)] Closed)
      as [H _].
    destruct H as (_ & _ & H); [reflexivity | reflexivity |].
    exact H.
  - destruct (final_chunk_is_relayed
                (<[response_key := PyStr (lit "Hi")]> ∅) [] [] Closed)
      as [_ H].
    destruct H as [H _]; [reflexivity | exact H].
Defined.

(** ** Runs over well-formed lines *)

Lemma clean_response_cleanable (v : pyval) :
  cleanable v = true -> exists c, clean_response v = Ok c.
Proof.
  unfold cleanable, clean_response. destruct (truthy v); simpl.
  - destruct v; try done. by eexists.
  - by eexists.
Qed.

Lemma loop_body_well_formed (chunk : line) :
  well_formed chunk = true ->
  exists out, loop_body chunk = (out, Continue)
              \/ loop_body chunk = (out, Break).
Proof.
  destruct chunk as [| | v]; [by exists []; left | done |].
  destruct v as [| | | | | | d]; try done. simpl.
  assert (Hdone : check_done (PyDict d) = Continue
                  \/ check_done (PyDict d) = Break).
  { unfold check_done. simpl.
    destruct (truthy (default (PyBool false) (d !! done_key))); eauto. }
  intros Hwf. unfold yield_response. simpl.
  destruct (d !! response_key) as [v|] eqn:Hr.
  - rewrite bool_decide_true by eauto.
    destruct (is_none v); [exists []; destruct Hdone as [-> | ->]; eauto|].
    destruct (clean_response_cleanable v Hwf) as [c Hc]. rewrite Hc.
    destruct (clean_response_formats v c Hc) as [t ->].
    exists [frame t]. destruct Hdone as [-> | ->]; eauto.
  - rewrite bool_decide_false by (by intros [? ?]).
    exists []. destruct Hdone as [-> | ->]; eauto.
Qed.

Lemma relay_loop_well_formed (ls : list line) (fin : stream_end) :
  forallb well_formed ls = true ->
  stop (relay_loop ls fin) = Finished
  \/ stop (relay_loop ls fin) = Raised RequestException.
Proof.
  induction ls as [|chunk rest IH]; simpl.
  - destruct fin; eauto.
  - intros H. apply andb_true_iff in H as [Hc Hrest].
    destruct (loop_body_well_formed chunk Hc) as [out [-> | ->]]; simpl; eauto.
Qed.

(** Over well-formed lines the generator always returns, and its stream is
    the frames of the loop closed by exactly one sentinel. *)
Lemma generator_well_formed (ls : list line) (fin : stream_end) :
  forallb well_formed ls = true ->
  exists s,
    generator (Responds ls fin) = (frames (relay_loop ls fin) ++ [s], Returned)
    /\ (s = END_OF_STREAM /\ stop (relay_loop ls fin) = Finished
        \/ s = ERROR /\ stop (relay_loop ls fin) = Raised RequestException).
Proof.
  intros H. simpl.
  destruct (relay_loop_well_formed ls fin H) as [Hs | Hs]; rewrite Hs; simpl.
  - exists END_OF_STREAM. eauto.
  - exists ERROR. eauto.
Qed.

(** A failure of the request itself gives the single [ERROR] frame. *)
Lemma generator_request_fails :
  generator PostRaises = ([ERROR], Returned)
  /\ generator StatusRaises = ([ERROR], Returned)
  /\ generator (Responds [] Broken) = ([ERROR], Returned).
Proof. by repeat split. Qed.

(** * Further properties of the code *)

(** ** The cleaner over fragments *)

Lemma clean_str_app (a b : pystr) :
  clean_str (a ++ b) = clean_str a ++ clean_str b.
Proof. by rewrite !clean_str_filter, filter_app. Qed.

Lemma clean_str_concat (fragments : list pystr) :
  clean_str (List.concat fragments)
  = List.concat (List.map clean_str fragments).
Proof.
  induction fragments as [|f fs IH]; simpl; [done|].
  by rewrite clean_str_app, IH.
Qed.

(** X1: cleaning works character by character, so cleaning the fragments
    one by one and joining them gives the cleaned whole text: no diacritic
    and no question mark survives at a border between fragments. *)
Theorem clean_response_fragmentwise (a b : pystr) (fragments : list pystr) :
  clean_response (PyStr (a ++ b)) = Ok (PyStr (clean_str a ++ clean_str b))
  /\ clean_str (List.concat fragments)
     = List.concat (List.map clean_str fragments)
  /\ Forall (fun c => ~ Removed c)
       (List.concat (List.map clean_str fragments)).
Proof.
  split; [|split].
  - by rewrite clean_response_str, clean_str_app.
  - apply clean_str_concat.
  - rewrite <- clean_str_concat. apply clean_str_clean.
Qed.

Lemma clean_str_length_eq (s : pystr) :
  length (clean_str s) = length s -> clean_str s = s.
Proof.
  rewrite clean_str_filter.
  induction s as [|c s IH]; [done|].
  rewrite filter_cons. destruct (decide (~ Removed c)) as [Hc | Hc]; simpl.
  - intros H. f_equal. apply IH. lia.
  - intros H. pose proof (length_filter (fun c => ~ Removed c) s). lia.
Qed.

(** X2: the cleaned text is a subsequence of the text, so it is never
    longer, and it has the same length only when nothing was removed. *)
Theorem clean_response_shrinks (s : pystr) :
  clean_str s `sublist_of` s
  /\ (length (clean_str s) <= length s)%nat
  /\ (length (clean_str s) = length s <-> clean_str s = s).
Proof.
  split; [|split].
  - rewrite clean_str_filter. apply sublist_filter.
  - rewrite clean_str_filter. apply length_filter.
  - split; [apply clean_str_length_eq | by intros ->].
Qed.

(** ** The detector, exactly *)

Lemma is_arabic_iff (s : pystr) :
  is_arabic (PyStr s) = true <-> Exists InArabicBlock s.
Proof.
  rewrite is_arabic_str, existsb_exists, Exists_exists. split.
  - intros (c & Hc & Hb). exists c.
    split; [by apply list_elem_of_In | by apply arabic_block_spec].
  - intros (c & Hc & Hb). exists c.
    split; [by apply list_elem_of_In | by apply arabic_block_spec].
Qed.

(** X3: a string is classified as Arabic exactly when one of its
    characters lies in U+0600 to U+06FF; every other string, also one of
    non-ASCII characters outside that block, is English.  A text joined
    from two parts is Arabic when one of the parts is. *)
Theorem is_arabic_exactly (s a b : pystr) :
  (is_arabic (PyStr s) = true <-> Exists InArabicBlock s)
  /\ (source_language (PyStr s) = English <->
      Forall (fun c => ~ InArabicBlock c) s)
  /\ is_arabic (PyStr (a ++ b)) = is_arabic (PyStr a) || is_arabic (PyStr b).
Proof.
  split; [apply is_arabic_iff|]. split.
  - unfold source_language. destruct (is_arabic (PyStr s)) eqn:Ha.
    + split; [done|]. intros Hall. apply is_arabic_iff in Ha.
      apply Exists_exists in Ha as (c & Hc & Hb).
      rewrite Forall_forall in Hall. by destruct (Hall c Hc).
    + split; [|done]. intros _. apply Forall_forall. intros c Hc Hb.
      assert (is_arabic (PyStr s) = true); [|congruence].
      apply is_arabic_iff, Exists_exists. eauto.
  - rewrite !is_arabic_str. apply existsb_app.
Qed.

(** X4: the cleaned text is classified as Arabic exactly when the text has
    a character of the Arabic block that is no diacritic: cleaning never
    turns an English text into an Arabic one.  Every diacritic lies in the
    Arabic block, so a text with a diacritic is Arabic, and a text whose
    only Arabic characters are diacritics is Arabic before cleaning and
    English after. *)
Theorem is_arabic_after_cleaning (s : pystr) :
  (is_arabic (PyStr (clean_str s)) = true <->
   Exists (fun c => InArabicBlock c /\ ~ Diacritic c) s)
  /\ (is_arabic (PyStr (clean_str s)) = true -> is_arabic (PyStr s) = true)
  /\ (Exists Diacritic s -> is_arabic (PyStr s) = true)
  /\ (Exists Diacritic s ->
      Forall (fun c => InArabicBlock c -> Diacritic c) s ->
      is_arabic (PyStr s) = true
      /\ source_language (PyStr s) = lit "Arabic"
      /\ is_arabic (PyStr (clean_str s)) = false
      /\ source_language (PyStr (clean_str s)) = lit "English").
Proof.
  assert (Hiff : is_arabic (PyStr (clean_str s)) = true <->
                 Exists (fun c => InArabicBlock c /\ ~ Diacritic c) s).
  { rewrite is_arabic_iff, clean_str_filter, !Exists_exists. split.
    - intros (c & Hc & Hb). apply list_elem_of_filter in Hc as [Hk Hc].
      exists c. split; [done|]. split; [done|]. intros Hd. apply Hk. by left.
    - intros (c & Hc & Hb & Hd). exists c. split; [|done].
      apply list_elem_of_filter. split; [|done].
      intros [H | ->]; [done|]. unfold InArabicBlock in Hb. lia. }
  assert (Hdia : Exists Diacritic s -> is_arabic (PyStr s) = true).
  { intros H. apply is_arabic_iff.
    apply Exists_exists in H as (c & Hc & Hd). apply Exists_exists.
    exists c. split; [done|]. unfold Diacritic in Hd. unfold InArabicBlock.
    lia. }
  split; [done|]. split.
  { intros H. apply Hiff in H. apply is_arabic_iff.
    apply Exists_exists in H as (c & Hc & Hb & _). apply Exists_exists. eauto. }
  split; [done|].
  intros Hex Hall.
  assert (Hbefore : is_arabic (PyStr s) = true) by by apply Hdia.
  assert (Hafter : is_arabic (PyStr (clean_str s)) = false).
  { apply not_true_is_false. intros H. apply Hiff in H.
    apply Exists_exists in H as (c & Hc & Hb & Hn).
    rewrite Forall_forall in Hall. by apply Hn, (Hall c Hc). }
  unfold source_language. by rewrite Hbefore, Hafter.
Qed.

Lemma is_arabic_after_cleaning_witness :
  source_language (PyStr (lit "a" ++ [0x064E])) = lit "Arabic"
  /\ source_language (PyStr (clean_str (lit "a" ++ [0x064E]))) = lit "English"
  /\ is_arabic (PyStr marhaban_marked) = true.
Proof.
  destruct (is_arabic_after_cleaning (lit "a" ++ [0x064E]))
    as (_ & _ & _ & H).
  destruct H as (_ & Hb & _ & Ha).
  - apply Exists_cons_tl, Exists_cons_hd. unfold Diacritic. lia.
  - apply Forall_cons. split; [unfold InArabicBlock; cbv beta; simpl; lia|].
    apply Forall_cons. split; [unfold Diacritic; lia | constructor].
  - split; [exact Hb|]. split; [exact Ha|].
    destruct (is_arabic_after_cleaning marhaban_marked) as (_ & H & _).
    apply H. reflexivity.
Defined.

(** ** The shape of every templated prompt *)

Lemma suffix_here (s : pystr) : s `suffix_of` s.
Proof. by exists []. Qed.

Lemma infix_quoted (text rest : pystr) :
  infix (dquote ++ text ++ dquote) (dquote ++ text ++ dquote ++ rest).
Proof. exists [], rest. by rewrite <- !app_assoc. Qed.

Ltac find_suffix :=
  repeat first [ apply suffix_here | apply suffix_app_r ].

Ltac find_quoted :=
  repeat first [ apply infix_quoted | apply infix_app_l ].

Lemma recognized_cases (task : pyval) :
  recognized task = true ->
  task = translate_task \/ task = tokenize_task \/ task = rephrase_task.
Proof.
  unfold recognized. rewrite !orb_true_iff, !py_eq_str_spec. tauto.
Qed.

Lemma translate_template_turns (sl tl dr rules text : pystr) :
  user_turn `prefix_of` translate_template sl tl dr rules text
  /\ end_of_turn `suffix_of` translate_template sl tl dr rules text
  /\ infix (dquote ++ text ++ dquote) (translate_template sl tl dr rules text).
Proof.
  unfold translate_template, translate_head, translate_tail, user_turn.
  rewrite <- !app_assoc. split; [|split].
  - by eexists.
  - find_suffix.
  - find_quoted.
Qed.

Lemma tokenize_template_turns (sl tag key text : pystr) :
  user_turn `prefix_of` tokenize_template sl tag key text
  /\ end_of_turn `suffix_of` tokenize_template sl tag key text
  /\ infix (dquote ++ text ++ dquote) (tokenize_template sl tag key text).
Proof.
  unfold tokenize_template, tokenize_head, tokenize_tail, user_turn.
  rewrite <- !app_assoc. split; [|split].
  - by eexists.
  - find_suffix.
  - find_quoted.
Qed.

Lemma rephrase_template_turns (sl text : pystr) :
  user_turn `prefix_of` rephrase_template sl text
  /\ end_of_turn `suffix_of` rephrase_template sl text
  /\ infix (dquote ++ text ++ dquote) (rephrase_template sl text).
Proof.
  unfold rephrase_template, rephrase_head, user_turn.
  rewrite <- !app_assoc. split; [|split].
  - by eexists.
  - find_suffix.
  - find_quoted.
Qed.

(** X5: for each of the three tasks, and every text and source language,
    the prompt opens with the user turn, holds the text between two double
    quotes, and ends by closing the turn and opening the model turn.  The
    text is not escaped: this holds also for a text with quotes or turn
    markers of its own. *)
Theorem create_prompt_turns
    (text : pystr) (task : pyval) (source_lang : pystr) :
  task = PyStr (lit "translate") \/ task = PyStr (lit "tokenize")
  \/ task = PyStr (lit "rephrase") ->
  (lit "<start_of_turn>user" ++ [10])
    `prefix_of` create_prompt text task source_lang
  /\ (lit "<end_of_turn>" ++ [10] ++ lit "<start_of_turn>model" ++ [10])
       `suffix_of` create_prompt text task source_lang
  /\ infix ([34] ++ text ++ [34]) (create_prompt text task source_lang).
Proof.
  change (lit "<start_of_turn>user" ++ [10]) with user_turn.
  change (lit "<end_of_turn>" ++ [10] ++ lit "<start_of_turn>model" ++ [10])
    with end_of_turn.
  change [34] with dquote.
  intros [-> | [-> | ->]].
  - rewrite create_prompt_translate.
    case_bool_decide; apply translate_template_turns.
  - rewrite create_prompt_tokenize. apply tokenize_template_turns.
  - rewrite create_prompt_rephrase. apply rephrase_template_turns.
Qed.

Lemma create_prompt_turns_witness :
  (lit "<end_of_turn>" ++ [10] ++ lit "<start_of_turn>model" ++ [10])
    `suffix_of`
    create_prompt (dquote ++ end_of_turn) (PyStr (lit "tokenize")) Arabic.
Proof.
  apply (create_prompt_turns (dquote ++ end_of_turn)
           (PyStr (lit "tokenize")) Arabic).
  right. left. reflexivity.
Defined.

Lemma create_prompt_same_text
    (t1 t2 : pystr) (task : pyval) (source_lang : pystr) :
  create_prompt t1 task source_lang = create_prompt t2 task source_lang ->
  t1 = t2.
Proof.
  destruct (recognized task) eqn:Hrec.
  - destruct (recognized_cases task Hrec) as [-> | [-> | ->]].
    + unfold translate_task. rewrite !create_prompt_translate.
      case_bool_decide; unfold translate_template; intros E;
        apply app_inv_head in E; by apply app_inv_tail in E.
    + unfold tokenize_task. rewrite !create_prompt_tokenize.
      unfold tokenize_template. intros E.
      apply app_inv_head in E. by apply app_inv_tail in E.
    + unfold rephrase_task. rewrite !create_prompt_rephrase.
      unfold rephrase_template. intros E.
      apply app_inv_head in E. by apply app_inv_tail in E.
  - unfold recognized in Hrec. rewrite !orb_false_iff in Hrec.
    destruct Hrec as [[H1 H2] H3].
    unfold create_prompt. by rewrite H1, H2, H3.
Qed.

(** X6: within one task and one source language, two different texts never
    give the same output: the output determines the text. *)
Theorem create_prompt_injective
    (t1 t2 : pystr) (task : pyval) (source_lang : pystr) :
  t1 <> t2 ->
  create_prompt t1 task source_lang <> create_prompt t2 task source_lang.
Proof.
  intros Hne E. apply Hne. by apply (create_prompt_same_text _ _ task source_lang).
Qed.

Lemma create_prompt_injective_witness :
  create_prompt (lit "a") rephrase_task English
  <> create_prompt (lit "a" ++ dquote) rephrase_task English.
Proof.
  apply (create_prompt_injective (lit "a") (lit "a" ++ dquote)
           rephrase_task English).
  discriminate.
Defined.

Lemma source_language_cases (v : pyval) :
  source_language v = Arabic \/ source_language v = English.
Proof. unfold source_language. destruct (is_arabic v); eauto. Qed.

(** X7: the language that [generate] detects is [Arabic] or [English]; the
    translation target is then the other of the two, never the detected
    one, and the tags of [tokenize] are asked in the detected language.
    For any other source language string the target is [English], the
    tags are English and the key is [english_tags]. *)
Theorem language_direction (original_text : pyval) (source_lang : pystr) :
  (source_language original_text = Arabic
   \/ source_language original_text = English)
  /\ target_lang_of (source_language original_text)
     <> source_language original_text
  /\ target_lang_of (source_language original_text) =
       (if is_arabic original_text then English else Arabic)
  /\ tag_lang_of (source_language original_text)
     = source_language original_text
  /\ (target_lang_of source_lang = Arabic <-> source_lang = English)
  /\ (tag_lang_of source_lang = Arabic <-> source_lang = Arabic)
  /\ (json_key_of source_lang = lit "arabic_tags" <-> source_lang = Arabic).
Proof.
  split; [apply source_language_cases|].
  split; [destruct (source_language_cases original_text) as [-> | ->]; done|].
  split; [unfold source_language; by destruct (is_arabic original_text)|].
  split; [destruct (source_language_cases original_text) as [-> | ->]; done|].
  unfold target_lang_of, tag_lang_of, json_key_of.
  split; [|split]; case_bool_decide; split; done.
Qed.

(** ** Frames of the relay *)

Lemma yield_response_frames (v : pyval) :
  (yield_response v).1 = []
  \/ exists t, (yield_response v).1 = [frame t].
Proof.
  unfold yield_response.
  destruct (contains_response v) as [[] | e]; simpl; eauto.
  destruct (getitem_response v) as [raw | e]; simpl; eauto.
  destruct (is_none raw); simpl; eauto.
  destruct (clean_response raw) as [c | e]; simpl; eauto.
  destruct (format_value c) as [t |]; simpl; eauto.
Qed.

Lemma loop_body_frames (chunk : line) :
  (loop_body chunk).1 = []
  \/ nonempty_line chunk = true /\ exists t, (loop_body chunk).1 = [frame t].
Proof.
  destruct chunk as [| | v]; simpl; eauto.
  destruct (yield_response_frames v) as [H | (t & H)];
    destruct (yield_response v) as [out k]; simpl in *; subst out;
    destruct k; simpl; eauto.
Qed.

Lemma relay_loop_frames (ls : list line) (fin : stream_end) :
  Forall (fun f => exists t, f = frame t) (frames (relay_loop ls fin))
  /\ (length (frames (relay_loop ls fin))
      <= length (List.filter nonempty_line ls))%nat.
Proof.
  induction ls as [|chunk rest [IHf IHl]].
  - simpl. destruct fin; simpl; split; (constructor || lia).
  - rewrite relay_loop_cons.
    assert (Hout : Forall (fun f => exists t, f = frame t) (loop_body chunk).1
                   /\ (length (loop_body chunk).1
                       + length (List.filter nonempty_line rest)
                       <= length (List.filter nonempty_line (chunk :: rest)))%nat).
    { destruct (loop_body_frames chunk) as [-> | (Hne & t & ->)].
      - split; [constructor|]. simpl.
        destruct (nonempty_line chunk); simpl; lia.
      - simpl. rewrite Hne. split; [|simpl; lia].
        constructor; [by exists t | constructor]. }
    destruct Hout as [Hf Hl].
    destruct (loop_body chunk) as [out k]; simpl in Hf, Hl.
    destruct k; simpl; try (split; [done | lia]).
    split; [by apply Forall_app | rewrite length_app; lia].
Qed.

(** X8: whatever the backend does, every string the generator yields is a
    frame: [data: ], a content, and two newlines. *)
Theorem generator_yields_frames (u : upstream) :
  Forall (fun f => exists t, f = lit "data: " ++ t ++ nl ++ nl) (generator u).1.
Proof.
  change (Forall (fun f => exists t, f = frame t) (generator u).1).
  assert (Hs : forall t, exists t', frame t = frame t') by eauto.
  destruct u as [| | ls fin]; simpl.
  - repeat constructor. apply Hs.
  - repeat constructor. apply Hs.
  - destruct (relay_loop_frames ls fin) as [Hf _].
    assert (Hend : forall s,
               (exists t, s = frame t) ->
               Forall (fun f => exists t, f = frame t)
                 (frames (relay_loop ls fin) ++ [s])).
    { intros s Hsent. apply Forall_app. split; [done|].
      by repeat constructor. }
    destruct (stop (relay_loop ls fin)) as [| e |]; simpl.
    + apply Hend, Hs.
    + destruct (is_request_exception e); simpl; [apply Hend, Hs | done].
    + done.
Qed.

(** X9: the generator yields at most one frame for each non-empty line of
    the response, and one sentinel after them. *)
Theorem generator_frame_count (ls : list line) (fin : stream_end) :
  (length (generator (Responds ls fin)).1
   <= length (List.filter nonempty_line ls) + 1)%nat.
Proof.
  destruct (relay_loop_frames ls fin) as [_ Hl]. simpl.
  destruct (stop (relay_loop ls fin)) as [| e |]; simpl.
  - rewrite length_app. simpl. lia.
  - destruct (is_request_exception e); simpl;
      [rewrite length_app; simpl; lia | lia].
  - lia.
Qed.

Lemma relay_loop_skip_empty (ls : list line) (fin : stream_end) :
  frames (relay_loop (List.filter nonempty_line ls) fin)
  = frames (relay_loop ls fin)
  /\ stop (relay_loop (List.filter nonempty_line ls) fin)
     = stop (relay_loop ls fin).
Proof.
  induction ls as [|chunk rest [IHf IHs]]; [done|].
  destruct chunk as [| | v].
  - simpl List.filter. rewrite (relay_loop_cons EmptyLine). simpl. done.
  - done.
  - simpl List.filter. rewrite !relay_loop_cons.
    destruct (loop_body (JsonLine v)) as [out []]; simpl; try done.
    by rewrite IHf, IHs.
Qed.

(** X10: empty lines of the response change nothing: the run over the
    lines with the empty ones taken out yields the same frames and ends in
    the same way. *)
Theorem generator_ignores_empty_lines (ls : list line) (fin : stream_end) :
  generator (Responds (List.filter nonempty_line ls) fin)
  = generator (Responds ls fin).
Proof.
  destruct (relay_loop_skip_empty ls fin) as [Hf Hs].
  simpl. by rewrite Hf, Hs.
Qed.

(** ** How a run ends *)

Lemma relay_loop_continues (ls : list line) (fin : stream_end) :
  Forall (fun c => (loop_body c).2 = Continue) ls ->
  relay_loop ls fin
  = LoopRun (frames_of ls)
      (match fin with Closed => Finished | Broken => Raised RequestException end)
      [].
Proof.
  intros Hall. induction Hall as [|c ls Hc _ IH].
  - by destruct fin.
  - rewrite relay_loop_cons. destruct (loop_body c) as [o k] eqn:Hb.
    simpl in Hc. subst k. rewrite IH. unfold frames_of. simpl.
    by rewrite Hb.
Qed.

(** X11: when no line ends the loop, the stream is the frames of all the
    lines and one sentinel: [END_OF_STREAM] when the body just ends, even
    though no chunk said [done], and [ERROR] when the transport breaks,
    behind the frames already sent. *)
Theorem generator_without_done (ls : list line) :
  Forall (fun c => (loop_body c).2 = Continue) ls ->
  generator (Responds ls Closed)
  = (frames_of ls ++ [lit "data: [END_OF_STREAM]" ++ [10] ++ [10]], Returned)
  /\ generator (Responds ls Broken)
     = (frames_of ls ++ [lit "data: [ERROR]" ++ [10] ++ [10]], Returned).
Proof.
  change (lit "data: [END_OF_STREAM]" ++ [10] ++ [10]) with END_OF_STREAM.
  change (lit "data: [ERROR]" ++ [10] ++ [10]) with ERROR.
  intros Hall. simpl.
  by rewrite !(relay_loop_continues ls _ Hall).
Qed.

Lemma generator_without_done_witness :
  generator (Responds (text_lines [lit "Hel"; lit "lo"]) Broken)
  = ([lit "data: Hel" ++ [10; 10]; lit "data: lo" ++ [10; 10];
      lit "data: [ERROR]" ++ [10; 10]], Returned).
Proof.
  destruct (generator_without_done (text_lines [lit "Hel"; lit "lo"]))
    as [_ H]; [|exact H].
  repeat constructor.
Defined.

Lemma relay_loop_breaks (before : list line) (chunk : line)
    (rest : list line) (fin : stream_end) (out : list pystr) :
  Forall (fun c => (loop_body c).2 = Continue) before ->
  loop_body chunk = (out, Break) ->
  relay_loop (before ++ chunk :: rest) fin
  = LoopRun (frames_of before ++ out) Finished rest.
Proof.
  intros Hbefore Hchunk.
  induction Hbefore as [|c before Hc _ IH].
  - rewrite app_nil_l, relay_loop_cons. by rewrite Hchunk.
  - rewrite <- app_comm_cons, relay_loop_cons.
    destruct (loop_body c) as [o k] eqn:Hb. simpl in Hc. subst k.
    rewrite IH. unfold frames_of. simpl. rewrite Hb. simpl.
    by rewrite <- app_assoc.
Qed.

(** X12: once a chunk ends the loop, nothing behind it matters: the
    stream is the frames up to that chunk and [END_OF_STREAM], whatever
    lines follow (malformed ones too) and even if the transport breaks
    afterwards. *)
Theorem generator_stops_at_done
    (before : list line) (chunk : line) (out : list pystr)
    (rest : list line) (fin : stream_end) :
  Forall (fun c => (loop_body c).2 = Continue) before ->
  loop_body chunk = (out, Break) ->
  generator (Responds (before ++ chunk :: rest) fin)
  = (frames_of before ++ out ++ [lit "data: [END_OF_STREAM]" ++ [10] ++ [10]], Returned)
  /\ unread (relay_loop (before ++ chunk :: rest) fin) = rest.
Proof.
  change (lit "data: [END_OF_STREAM]" ++ [10] ++ [10]) with END_OF_STREAM.
  intros Hbefore Hchunk. simpl.
  rewrite (relay_loop_breaks before chunk rest fin out Hbefore Hchunk).
  simpl. by rewrite <- app_assoc.
Qed.

Lemma generator_stops_at_done_witness :
  generator
    (Responds ([JsonLine (fragment_chunk (lit "Hi") false)]
               ++ JsonLine (fragment_chunk (lit "!") true) :: [BadLine])
       Broken)
  = ([lit "data: Hi" ++ [10; 10]] ++ [lit "data: !" ++ [10; 10]]
     ++ [lit "data: [END_OF_STREAM]" ++ [10; 10]], Returned).
Proof.
  apply (generator_stops_at_done
           [JsonLine (fragment_chunk (lit "Hi") false)]
           (JsonLine (fragment_chunk (lit "!") true)) [frame (lit "!")]
           [BadLine] Broken).
  - repeat constructor.
  - reflexivity.
Defined.

Lemma loop_body_text_line (r : pystr) :
  loop_body (JsonLine (fragment_chunk r false))
  = ([frame (clean_str r)], Continue).
Proof.
  unfold fragment_chunk. simpl.
  rewrite (yield_response_text _ r) by apply lookup_insert_eq.
  unfold check_done. simpl.
  rewrite lookup_insert_ne by discriminate. by rewrite lookup_insert_eq.
Qed.

Lemma text_lines_continue (rs : list pystr) :
  Forall (fun c => (loop_body c).2 = Continue) (text_lines rs).
Proof.
  unfold text_lines. apply Forall_forall. intros c Hc.
  apply list_elem_of_In, in_map_iff in Hc as (r & <- & _).
  by rewrite loop_body_text_line.
Qed.

Lemma frames_of_text_lines (rs : list pystr) :
  frames_of (text_lines rs) = List.map (fun r => frame (clean_str r)) rs.
Proof.
  induction rs as [|r rs IH]; [done|].
  change (frames_of (text_lines (r :: rs))) with
    ((loop_body (JsonLine (fragment_chunk r false))).1
     ++ frames_of (text_lines rs)).
  by rewrite loop_body_text_line, IH.
Qed.

(** X13: for a backend that streams the texts [rs] in chunks, the stream
    is one frame for each text, holding that text cleaned, and the end
    sentinel; the contents of the frames, joined, are the whole text
    cleaned. *)
Theorem generator_relays_cleaned_text (rs : list pystr) :
  generator (Responds (text_lines rs) Closed)
  = (List.map (fun r => lit "data: " ++ clean_str r ++ [10] ++ [10]) rs
     ++ [lit "data: [END_OF_STREAM]" ++ [10] ++ [10]], Returned)
  /\ List.concat (List.map clean_str rs) = clean_str (List.concat rs).
Proof.
  change (lit "data: [END_OF_STREAM]" ++ [10] ++ [10]) with END_OF_STREAM.
  change (fun r => lit "data: " ++ clean_str r ++ [10] ++ [10])
    with (fun r => frame (clean_str r)).
  split.
  - simpl. rewrite (relay_loop_continues _ _ (text_lines_continue rs)).
    simpl. by rewrite frames_of_text_lines.
  - symmetry. apply clean_str_concat.
Qed.

(** ** What one chunk yields *)

Lemma yield_response_cases (d : gmap pystr pyval) :
  match d !! response_key with
  | None | Some PyNone => yield_response (PyDict d) = ([], Continue)
  | Some v =>
      if cleanable v then
        exists c t,
          clean_response v = Ok c /\ format_value c = Some t
          /\ yield_response (PyDict d) = ([frame t], Continue)
      else yield_response (PyDict d) = ([], Throw TypeError)
  end.
Proof.
  unfold yield_response. simpl.
  destruct (d !! response_key) as [v|] eqn:Hr.
  - rewrite bool_decide_true by eauto.
    assert (Hv : is_none v = false ->
                 if cleanable v then
                   exists c t,
                     clean_response v = Ok c /\ format_value c = Some t
                     /\ (if is_none v then ([], Continue)
                         else match clean_response v with
                              | Ok cleaned_response =>
                                  match format_value cleaned_response with
                                  | Some s => ([frame s], Continue)
                                  | None => ([], Stuck)
                                  end
                              | Raise e => ([], Throw e)
                              end) = ([frame t], Continue)
                 else (if is_none v then ([], Continue)
                       else match clean_response v with
                            | Ok cleaned_response =>
                                match format_value cleaned_response with
                                | Some s => ([frame s], Continue)
                                | None => ([], Stuck)
                                end
                            | Raise e => ([], Throw e)
                            end) = ([], Throw TypeError)).
    { intros Hn. rewrite Hn. destruct (cleanable v) eqn:Hc.
      - destruct (clean_response_cleanable v Hc) as [c Hclean].
        destruct (clean_response_formats v c Hclean) as [t Ht].
        exists c, t. by rewrite Hclean, Ht.
      - unfold cleanable in Hc. apply orb_false_iff in Hc as [Ht Hs].
        apply negb_false_iff in Ht. unfold clean_response. rewrite Ht.
        simpl. by destruct v. }
    destruct v; try (by apply Hv). done.
  - rewrite bool_decide_false; [done | by intros [? ?]].
Qed.

(** X14: what the first [if] of the loop body does with a decoded object,
    by its [response] field: without the field, or with [null] in it,
    nothing is yielded; a string or a falsy value gives exactly one frame
    with the text of the cleaned value; any other value (a non-zero number,
    [true], a non-empty list or object) raises [TypeError]. *)
Theorem yield_response_by_field (d : gmap pystr pyval) :
  match d !! lit "response" with
  | None | Some PyNone => yield_response (PyDict d) = ([], Continue)
  | Some v =>
      if cleanable v then
        exists c t,
          clean_response v = Ok c /\ format_value c = Some t
          /\ yield_response (PyDict d)
             = ([lit "data: " ++ t ++ [10] ++ [10]], Continue)
      else yield_response (PyDict d) = ([], Throw TypeError)
  end.
Proof.
  pose proof (yield_response_cases d) as H.
  change (lit "response") with response_key.
  destruct (d !! response_key) as [v|]; exact H.
Qed.

Lemma frame_inj (a b : pystr) : frame a = frame b -> a = b.
Proof.
  unfold frame. intros H. apply app_inv_head in H.
  by apply app_inv_tail in H.
Qed.

(** X15: the sentinels are not reserved: a fragment is framed like them,
    so the frame of a text equals a sentinel exactly when the cleaned text
    is the sentinel's content, and a chunk with such a text puts a frame
    equal to [ERROR] into a stream that then ends with [END_OF_STREAM]. *)
Theorem fragment_can_equal_sentinel (r : pystr) :
  (frame (clean_str r) = ERROR <-> clean_str r = lit "[ERROR]")
  /\ (frame (clean_str r) = END_OF_STREAM <->
      clean_str r = lit "[END_OF_STREAM]")
  /\ (clean_str r = lit "[ERROR]" ->
      generator (Responds [JsonLine (fragment_chunk r true)] Closed)
      = ([ERROR; END_OF_STREAM], Returned)).
Proof.
  split; [|split].
  - split; [apply frame_inj | by intros ->].
  - split; [apply frame_inj | by intros ->].
  - intros Hr.
    assert (Hbody : loop_body (JsonLine (fragment_chunk r true))
                    = ([frame (clean_str r)], Break)).
    { unfold fragment_chunk. simpl.
      rewrite (yield_response_text _ r) by apply lookup_insert_eq.
      unfold check_done. simpl.
      rewrite lookup_insert_ne by discriminate. by rewrite lookup_insert_eq. }
    unfold generator. rewrite relay_loop_cons, Hbody. simpl. by rewrite Hr.
Qed.

Lemma fragment_can_equal_sentinel_witness :
  generator
    (Responds [JsonLine (fragment_chunk (lit "[ERR?OR]") true)] Closed)
  = ([ERROR; END_OF_STREAM], Returned).
Proof.
  destruct (fragment_can_equal_sentinel (lit "[ERR?OR]")) as (_ & _ & H).
  apply H. reflexivity.
Defined.

(** ** [generate]: defaults and odd requests *)

Lemma key_text_task : text_key <> task_key.
Proof. discriminate. Qed.

Lemma create_prompt_value_str (str_rest : pyval -> pystr)
    (s : pystr) (task : pyval) (sl : pystr) :
  create_prompt_value str_rest (PyStr s) task sl
  = PyStr (create_prompt s task sl).
Proof.
  unfold create_prompt_value. destruct (recognized task) eqn:Hrec; [done|].
  unfold recognized in Hrec. rewrite !orb_false_iff in Hrec.
  destruct Hrec as [[H1 H2] H3]. unfold create_prompt.
  by rewrite H1, H2, H3.
Qed.

(** X16: a request without [task] is handled as the same request with
    task [translate], and a request without [text] as the same request
    with the empty text; the empty object asks for the translation of the
    empty English text. *)
Theorem generate_defaults (str_rest : pyval -> pystr) (d : gmap pystr pyval) :
  (d !! task_key = None ->
   generate_prompt str_rest (PyDict d)
   = generate_prompt str_rest (PyDict (<[task_key := translate_task]> d)))
  /\ (d !! text_key = None ->
      generate_prompt str_rest (PyDict d)
      = generate_prompt str_rest (PyDict (<[text_key := PyStr []]> d)))
  /\ generate_prompt str_rest (PyDict ∅)
     = Ok (PyStr (create_prompt [] translate_task English)).
Proof.
  split; [|split].
  - intros H. unfold generate_prompt, request_text, request_task.
    rewrite lookup_insert_eq, H.
    by rewrite (lookup_insert_ne d task_key text_key).
  - intros H. unfold generate_prompt, request_text, request_task.
    rewrite lookup_insert_eq, H.
    by rewrite (lookup_insert_ne d text_key task_key).
  - reflexivity.
Qed.

Lemma generate_defaults_witness :
  generate_prompt (fun _ => []) (PyDict (<[text_key := PyStr marhaba]> ∅))
  = generate_prompt (fun _ => [])
      (PyDict (<[task_key := translate_task]>
                 (<[text_key := PyStr marhaba]> ∅))).
Proof.
  destruct (generate_defaults (fun _ => [])
              (<[text_key := PyStr marhaba]> ∅)) as [H _].
  apply H. reflexivity.
Defined.

(** X17: a [task] that is present but is none of the three task names
    (another string, [null], a number) is not replaced by the default: the
    prompt sent to the backend is the [text] value of the request itself,
    not even converted to a string, and the empty string when there is no
    [text]. *)
Theorem generate_unrecognized_task
    (str_rest : pyval -> pystr) (d : gmap pystr pyval) (task : pyval) :
  d !! task_key = Some task ->
  recognized task = false ->
  generate_prompt str_rest (PyDict d) = Ok (request_text d)
  /\ (d !! text_key = None ->
      generate_prompt str_rest (PyDict d) = Ok (PyStr [])).
Proof.
  intros Ht Hrec.
  assert (H : generate_prompt str_rest (PyDict d) = Ok (request_text d)).
  { unfold generate_prompt, request_task. rewrite Ht. simpl.
    unfold create_prompt_value. by rewrite Hrec. }
  split; [done|]. intros Hx. rewrite H. unfold request_text. by rewrite Hx.
Qed.

Lemma generate_unrecognized_task_witness :
  generate_prompt (fun _ => [])
    (PyDict (<[task_key := PyNone]> (<[text_key := PyInt 5]> ∅)))
  = Ok (PyInt 5).
Proof.
  destruct (generate_unrecognized_task (fun _ => [])
              (<[task_key := PyNone]> (<[text_key := PyInt 5]> ∅)) PyNone)
    as [H _]; [reflexivity | reflexivity | exact H].
Defined.

(** X18: for a translate request (by name or by default) with a string as
    text, the prompt names the detected language as source and the other
    one as target: a text with a character of the Arabic block is
    translated to English, every other text to Arabic under the rule
    against diacritics. *)
Theorem generate_translate_direction
    (str_rest : pyval -> pystr) (d : gmap pystr pyval) (s : pystr) :
  d !! text_key = Some (PyStr s) ->
  request_task d = translate_task ->
  exists p,
    generate_prompt str_rest (PyDict d) = Ok (PyStr p)
    /\ if is_arabic (PyStr s)
       then infix (lit "Translate the provided Arabic text to English.") p
       else infix (lit "Translate the provided English text to Arabic.") p
            /\ infix
                 (lit "1. **ABSOLUTELY CRITICAL**: Your response MUST NOT contain any Arabic diacritics (Tashkeel / formations)."
                  ++ [10] ++ lit "   - **Example (Good)**: "
                  ++ [34; 0x0645; 0x0631; 0x062D; 0x0628; 0x0627; 34]
                  ++ [10] ++ lit "2. **CRITICAL**: Do NOT output any question mark `?` characters.")
                 p.
Proof.
  change (lit "Translate the provided Arabic text to English.")
    with (translate_instruction Arabic English).
  change (lit "Translate the provided English text to Arabic.")
    with (translate_instruction English Arabic).
  intros Hx Ht. unfold generate_prompt, request_text. rewrite Hx, Ht. simpl.
  rewrite create_prompt_value_str. eexists. split; [reflexivity|].
  unfold source_language. destruct (is_arabic (PyStr s)).
  - rewrite translate_prompt_arabic_source.
    apply (translate_template_instructs Arabic English []
             (other_rules_english Arabic English) s).
  - rewrite translate_prompt_english_source.
    split; [apply translate_template_instructs|].
    apply (translate_template_rule English Arabic diacritics_rule_arabic).
Qed.

Lemma generate_translate_direction_witness :
  exists p,
    generate_prompt (fun _ => []) (PyDict (<[text_key := PyStr marhaba]> ∅))
    = Ok (PyStr p)
    /\ infix (lit "Translate the provided Arabic text to English.") p.
Proof.
  destruct (generate_translate_direction (fun _ => [])
              (<[text_key := PyStr marhaba]> ∅) marhaba)
    as (p & Hp & Hdir); [reflexivity | reflexivity |].
  exists p. split; [exact Hp | exact Hdir].
Defined.

(** X19: a [text] that is no string (a number, [null], a truth value, a
    list, an object) is never detected as Arabic, and a template embeds
    its Python text: the prompt of a recognized task is the English-source
    prompt for [str(text)].  [null] is prompted as the word [None], a truth
    value as [True] or [False], an integer in decimal; the text of the
    remaining values is what the parameter [str_rest] gives. *)
Theorem generate_text_not_a_string
    (str_rest : pyval -> pystr) (d : gmap pystr pyval) (v : pyval) :
  d !! text_key = Some v ->
  isinstance_str v = false ->
  recognized (request_task d) = true ->
  source_language v = lit "English"
  /\ generate_prompt str_rest (PyDict d)
     = Ok (PyStr (create_prompt (py_str str_rest v) (request_task d)
                    (lit "English")))
  /\ py_str str_rest PyNone = lit "None"
  /\ py_str str_rest (PyBool true) = lit "True"
  /\ py_str str_rest (PyBool false) = lit "False"
  /\ (forall z, py_str str_rest (PyInt z)
                = lit (NilZero.string_of_int (Z.to_int z)))
  /\ (format_value v = None -> py_str str_rest v = str_rest v).
Proof.
  intros Hx Hv Hrec.
  assert (Hs : source_language v = lit "English").
  { unfold source_language. by rewrite (is_arabic_not_str v Hv). }
  split; [done|]. split.
  { unfold generate_prompt, request_text. rewrite Hx. simpl.
    unfold create_prompt_value. by rewrite Hrec, Hs. }
  repeat (split; [done|]).
  intros Hf. unfold py_str. by rewrite Hf.
Qed.

Lemma generate_text_not_a_string_witness :
  generate_prompt (fun _ => lit "inf") (PyDict (<[text_key := PyNone]> ∅))
  = Ok (PyStr (create_prompt (lit "None") translate_task English))
  /\ generate_prompt (fun _ => lit "inf")
       (PyDict (<[text_key := PyFloat (S754_infinity false)]> ∅))
     = Ok (PyStr (create_prompt (lit "inf") translate_task English)).
Proof.
  split.
  - destruct (generate_text_not_a_string (fun _ => lit "inf")
                (<[text_key := PyNone]> ∅) PyNone)
      as (_ & H & _); [reflexivity ..|].
    rewrite H. reflexivity.
  - destruct (generate_text_not_a_string (fun _ => lit "inf")
                (<[text_key := PyFloat (S754_infinity false)]> ∅)
                (PyFloat (S754_infinity false)))
      as (_ & H & _); [reflexivity ..|].
    rewrite H. reflexivity.
Defined.

(** ** The [done] field *)

